(** * Lama ingest pipeline: text normalisation and page chunking

    A shallow embedding of [src/ingest.py] ([_clean_text] and [chunk_text])
    together with the properties its specification states about them.

    Modelling decisions.
    - A Python [str] is a Rocq [string]; a character is one code point in
      the range [0..255].  The chunker never inspects characters, so its
      results do not depend on this range; the normaliser uses Python's
      [str.isspace] restricted to it.
    - A Python [int] is a [Z]; [len] returns a [Z].
    - [raise] is the [Raise] outcome; the [while] loop of [chunk_text] is run
      with fuel and [OutOfFuel] marks an unfinished run.  [fuel_for] gives a
      sufficient amount, so every statement below is about a finished run.
    - The list [chunks] is threaded through the two loops as an accumulator,
      [chunks.append] adds at its end. *)

From Stdlib Require Import ZArith List Bool Lia Ascii String.
From Stdlib Require Import DecimalString DecimalZ.
From Stdlib Require Import Permutation.
Import ListNotations.

Open Scope string_scope.
Open Scope list_scope.
Open Scope Z_scope.

(** ** Python built-ins used by the source *)

Module Py.

(** [len(s)] *)
Definition len (s : string) : Z := Z.of_nat (String.length s).

(** The first [n] characters of [s] (all of it when [s] is shorter). *)
Fixpoint take (n : nat) (s : string) : string :=
  match n, s with
  | O, _ => EmptyString
  | S _, EmptyString => EmptyString
  | S n', String c s' => String c (take n' s')
  end.

(** [s] without its first [n] characters. *)
Fixpoint drop (n : nat) (s : string) : string :=
  match n, s with
  | O, _ => s
  | S _, EmptyString => EmptyString
  | S n', String _ s' => drop n' s'
  end.

(** Bound adjustment of a slice index: a negative index counts from the
    end, and the result is clipped to [0 .. len]. *)
Definition clip (l : Z) (k : Z) : Z :=
  if k <? 0 then Z.max 0 (k + l) else Z.min k l.

(** [s[lo:hi]] *)
Definition slice (s : string) (lo hi : Z) : string :=
  let lo' := clip (len s) lo in
  let hi' := clip (len s) hi in
  take (Z.to_nat (hi' - lo')) (drop (Z.to_nat lo') s).

(** Truth value of a string: [not s] is [true] exactly for the empty one. *)
Definition not_ (s : string) : bool :=
  match s with EmptyString => true | String _ _ => false end.

(** [str(z)], also the [{z}] of an f-string, for an integer. *)
Definition str (z : Z) : string := NilZero.string_of_int (Z.to_int z).

(** [str.isspace] on one character, for the code points below 256:
    TAB, LF, VT, FF, CR, the separators FS GS RS US, SPACE, NEL and the
    no-break space. *)
Definition isspace (c : ascii) : bool :=
  let n := N_of_ascii c in
  ((9 <=? n) && (n <=? 13) || (28 <=? n) && (n <=? 32)
   || (n =? 133) || (n =? 160))%N.

(** [s.lstrip()] *)
Fixpoint lstrip (s : string) : string :=
  match s with
  | EmptyString => EmptyString
  | String c s' => if isspace c then lstrip s' else s
  end.

(** [s.rstrip()] *)
Fixpoint rstrip (s : string) : string :=
  match s with
  | EmptyString => EmptyString
  | String c s' =>
      match rstrip s' with
      | EmptyString => if isspace c then EmptyString else String c EmptyString
      | r => String c r
      end
  end.

(** [s.strip()] *)
Definition strip (s : string) : string := rstrip (lstrip s).

(** The scanner of [s.split()]: [cur] is the word being read. *)
Fixpoint split_from (cur : string) (s : string) : list string :=
  match s with
  | EmptyString => if not_ cur then [] else [cur]
  | String c s' =>
      if isspace c
      then (if not_ cur then split_from EmptyString s'
            else cur :: split_from EmptyString s')
      else split_from (cur ++ String c EmptyString)%string s'
  end.

(** [s.split()]: the maximal runs of non-whitespace characters. *)
Definition split (s : string) : list string := split_from EmptyString s.

(** [sep.join(ws)] *)
Fixpoint join (sep : string) (ws : list string) : string :=
  match ws with
  | [] => EmptyString
  | [w] => w
  | w :: ws' => (w ++ sep ++ join sep ws')%string
  end.

End Py.

(** ** The chunker *)

Inductive exn : Type :=
| ValueError (msg : string).

Inductive outcome (A : Type) : Type :=
| Return (a : A)
| Raise (e : exn)
| OutOfFuel.
Arguments Return {A} a.
Arguments Raise {A} e.
Arguments OutOfFuel {A}.

(** The dict built for each chunk. *)
Record Chunk : Type := mkChunk {
  text : string;
  page : Z;
  chunk_id : string;
  source : string
}.

(** [source_path or ""] *)
Definition source_or_empty (source_path : option string) : string :=
  match source_path with
  | None => ""
  | Some s => if Py.not_ s then "" else s
  end.

(** [f"{i}-{n}"] *)
Definition format_chunk_id (i n : Z) : string :=
  (Py.str i ++ "-" ++ Py.str n)%string.

(** The [while idx < len(page_text)] loop of one page; [None] when the fuel
    is used up before the loop ends. *)
Fixpoint while_page (fuel : nat) (page_text : string) (chunk_size step : Z)
    (i : Z) (src : string) (n idx : Z) (chunks : list Chunk)
  : option (list Chunk) :=
  if idx <? Py.len page_text then
    match fuel with
    | O => None
    | S fuel' =>
        let part := Py.slice page_text idx (idx + chunk_size) in
        if Py.not_ part then Some chunks
        else
          let chunk := mkChunk part i (format_chunk_id i n) src in
          while_page fuel' page_text chunk_size step i src
                     (n + 1) (idx + step) (chunks ++ [chunk])
    end
  else Some chunks.

(** The [for i, page_text in enumerate(pages, start=1)] loop. *)
Fixpoint for_pages (fuel : nat) (pages : list string) (chunk_size step : Z)
    (src : string) (i : Z) (chunks : list Chunk) : option (list Chunk) :=
  match pages with
  | [] => Some chunks
  | page_text :: rest =>
      match while_page fuel page_text chunk_size step i src 0 0 chunks with
      | None => None
      | Some chunks' => for_pages fuel rest chunk_size step src (i + 1) chunks'
      end
  end.

Definition a_ring : string := String (ascii_of_nat 229) EmptyString.
Definition ae_lig : string := String (ascii_of_nat 230) EmptyString.

Definition chunk_text (fuel : nat) (pages : list string)
    (chunk_size overlap : Z) (source_path : option string)
  : outcome (list Chunk) :=
  if chunk_size <=? 0 then
    Raise (ValueError ("chunk_size m" ++ a_ring ++ " v" ++ ae_lig
                       ++ "re > 0")%string)
  else if (overlap <? 0) || (overlap >=? chunk_size) then
    Raise (ValueError ("overlap m" ++ a_ring ++ " v" ++ ae_lig
                       ++ "re >= 0 og < chunk_size")%string)
  else
    let step := chunk_size - overlap in
    match for_pages fuel pages chunk_size step
                    (source_or_empty source_path) 1 [] with
    | None => OutOfFuel
    | Some chunks => Return chunks
    end.

(** Fuel that lets every page's loop finish: the longest page's length. *)
Definition fuel_for (pages : list string) : nat :=
  list_max (map String.length pages).

(** ** The normaliser *)

(** [" ".join(text.strip().split())] *)
Definition _clean_text (text : string) : string :=
  Py.join " " (Py.split (Py.strip text)).

(** The line feed and the tabulation. *)
Definition LF : ascii := ascii_of_nat 10.
Definition TAB : ascii := ascii_of_nat 9.

(** [s] begins with a whitespace character. *)
Definition starts_space (s : string) : bool :=
  match s with
  | EmptyString => false
  | String c _ => Py.isspace c
  end.

(** [s] ends with a whitespace character. *)
Fixpoint ends_space (s : string) : bool :=
  match s with
  | EmptyString => false
  | String c s' =>
      match s' with
      | EmptyString => Py.isspace c
      | String _ _ => ends_space s'
      end
  end.

(** Every whitespace character of [s] is an ASCII space that no whitespace
    character follows. *)
Fixpoint single_spaced (s : string) : bool :=
  match s with
  | EmptyString => true
  | String c s' =>
      (if Py.isspace c then (c =? " ")%char && negb (starts_space s')
       else true)
      && single_spaced s'
  end.

(** The normaliser in the specification's words, first half: every maximal
    run of whitespace characters becomes one ASCII space (written when the
    run ends). *)
Fixpoint collapse_runs (s : string) : string :=
  match s with
  | EmptyString => EmptyString
  | String c s' =>
      if Py.isspace c
      then (if starts_space s' then collapse_runs s'
            else String " " (collapse_runs s'))
      else String c (collapse_runs s')
  end.

(** The normaliser in the specification's words: trim leading and trailing
    whitespace, then collapse the runs. *)
Definition normalize_by_spec (raw : string) : string :=
  collapse_runs (Py.strip raw).

(** ** Closed form of the chunker's result *)

(** [ceil(a / b)] for a positive [b]. *)
Definition ceil_div (a b : Z) : Z := (a + b - 1) / b.

(** Number of chunks of a page of length [L]. *)
Definition chunk_count (L step : Z) : nat := Z.to_nat (ceil_div L step).

(** The record with sequence number [j] of page [i]. *)
Definition nth_chunk (T : string) (chunk_size step : Z) (src : string)
    (i : Z) (j : nat) : Chunk :=
  mkChunk (Py.slice T (Z.of_nat j * step) (Z.of_nat j * step + chunk_size))
          i (format_chunk_id i (Z.of_nat j)) src.

Definition page_chunks (T : string) (chunk_size step : Z) (src : string)
    (i : Z) : list Chunk :=
  map (nth_chunk T chunk_size step src i)
      (seq 0 (chunk_count (Py.len T) step)).

Fixpoint doc_chunks (pages : list string) (chunk_size step : Z)
    (src : string) (i : Z) : list Chunk :=
  match pages with
  | [] => []
  | T :: rest =>
      page_chunks T chunk_size step src i
      ++ doc_chunks rest chunk_size step src (i + 1)
  end.

(** The records of [out] that carry page number [i], in output order. *)
Definition records_of_page (out : list Chunk) (i : Z) : list Chunk :=
  filter (fun c => page c =? i) out.

(** The page at 0-based list position [p] has page number [p + 1]. *)
Definition page_number (p : nat) : Z := Z.of_nat p + 1.

(** The count the specification's formula gives for a page of length [L]:
    [ceil ((L - overlap) / (chunk_size - overlap))] when [L > overlap],
    else 1. *)
Definition claimed_count (L chunk_size overlap : Z) : Z :=
  if overlap <? L then ceil_div (L - overlap) (chunk_size - overlap) else 1.

(** The records of [out] that do not carry page number [i]. *)
Definition without_page (out : list Chunk) (i : Z) : list Chunk :=
  filter (fun c => negb (page c =? i)) out.

(** The texts of the records [l], concatenated in order. *)
Definition concat_texts (l : list Chunk) : string :=
  fold_right (fun c acc => (text c ++ acc)%string) "" l.

(** [c] is the last of the records of its page in [out]. *)
Definition final_of_page (out : list Chunk) (c : Chunk) : Prop :=
  exists front, records_of_page out (page c) = front ++ [c].

(** [t] occurs in [s] as a run of consecutive characters. *)
Definition is_substring (t s : string) : Prop :=
  exists pre post, s = (pre ++ t ++ post)%string.

(** [t] is the end of [s]. *)
Definition is_suffix (t s : string) : Prop :=
  exists pre, s = (pre ++ t)%string.

(** The last [n] characters of [s] (all of it when [s] is shorter). *)
Definition last_chars (n : nat) (s : string) : string :=
  Py.drop (String.length s - n) s.

(** [s] contains the character "-". *)
Fixpoint has_dash (s : string) : bool :=
  match s with
  | EmptyString => false
  | String c s' => (c =? "-")%char || has_dash s'
  end.

(** The parameters [chunk_text] accepts. *)
Definition valid_params (chunk_size overlap : Z) : Prop :=
  0 < chunk_size /\ 0 <= overlap < chunk_size.

(** ** The rest of the pipeline: loading, file discovery, documents

    The collaborators of the code (the file system, [pypdf], [glob],
    [llama_index]) are values of the records [World] and [Indexer]: what
    they answer is not fixed here, the code around them is. *)

(** The exceptions seen in the pipeline.  [Invalid] carries the
    [ValueError]s; [Foreign] is whatever a collaborator raises. *)
Inductive pyexn : Type :=
| Invalid (e : exn)
| FileNotFoundError (msg : string)
| KeyError (key : string)
| Foreign (name : string).

(** The result of a call: a value, an exception, or an unfinished run of
    the chunker's loop. *)
Inductive run (A : Type) : Type :=
| Done (a : A)
| Fail (e : pyexn)
| NoFuel.
Arguments Done {A} a.
Arguments Fail {A} e.
Arguments NoFuel {A}.

(** What the code asks of the file system and of [pypdf]:
    [os.path.exists], [PdfReader(path).pages] with the answer of each
    page's [extract_text()] (a text, [None], or an exception), and
    [glob.glob]. *)
Record World : Type := mkWorld {
  path_exists : string -> bool;
  pdf_reader : string -> pyexn + list (pyexn + option string);
  glob : string -> list string
}.

(** [c.lower()] for one character below 256: the letters A-Z and the
    Latin-1 capitals (192-222 without the multiplication sign 215) move up
    by 32. *)
Definition lower_char (c : ascii) : ascii :=
  let n := N_of_ascii c in
  if ((65 <=? n) && (n <=? 90)
      || (192 <=? n) && (n <=? 222) && negb (n =? 215))%N
  then ascii_of_N (n + 32) else c.

(** [s.lower()] *)
Fixpoint lower (s : string) : string :=
  match s with
  | EmptyString => EmptyString
  | String c s' => String (lower_char c) (lower s')
  end.

(** [s.endswith(suffix)] *)
Definition endswith (s suffix : string) : bool :=
  (String.length suffix <=? String.length s)%nat
  && (Py.drop (String.length s - String.length suffix) s =? suffix)%string.

(** [s.startswith(prefix)] *)
Definition startswith (s prefix : string) : bool :=
  (Py.take (String.length prefix) s =? prefix)%string.

(** The [for page in reader.pages] loop of [load_pdf]; [source_or_empty]
    is the [... or ""] of the source. *)
Fixpoint extract_pages (pages : list (pyexn + option string))
    (pages_text : list string) : run (list string) :=
  match pages with
  | [] => Done pages_text
  | inl e :: _ => Fail e
  | inr extracted :: rest =>
      let text := source_or_empty extracted in
      extract_pages rest (pages_text ++ [_clean_text text])
  end.

Definition load_pdf (w : World) (path : string) : run (list string) :=
  if negb (path_exists w path) then
    Fail (FileNotFoundError ("Fant ikke fil: " ++ path)%string)
  else if negb (endswith (lower path) ".pdf") then
    Fail (Invalid (ValueError ("Fil m" ++ a_ring ++ " v" ++ ae_lig
                               ++ "re en .pdf")%string))
  else
    match pdf_reader w path with
    | inl e => Fail e
    | inr pages => extract_pages pages []
    end.

(** [os.path.join(a, b)] on a POSIX system. *)
Definition path_join (a b : string) : string :=
  if startswith b "/" then b
  else if Py.not_ a || endswith a "/" then (a ++ b)%string
  else (a ++ "/" ++ b)%string.

(** One step of [sorted] on strings: [x] goes before the first element
    that is not below it. *)
Fixpoint insert_sorted (x : string) (l : list string) : list string :=
  match l with
  | [] => [x]
  | y :: r => if (x <=? y)%string then x :: y :: r
              else y :: insert_sorted x r
  end.

(** [sorted(l)] for a list of strings, ordered by code points. *)
Definition sorted (l : list string) : list string :=
  fold_right insert_sorted [] l.

(** [_find_first_pdf] of [ingest.py]. *)
Definition _find_first_pdf (w : World) (data_dir : string) : run string :=
  let pattern := path_join data_dir "*.pdf" in
  let candidates := sorted (glob w pattern) in
  match candidates with
  | [] => Fail (FileNotFoundError ("Fant ingen PDF i " ++ data_dir
                                   ++ ". Legg en fil der.")%string)
  | first :: _ => Done first
  end.

Module Index.

(** [_find_first_pdf] of [index.py]. *)
Definition _find_first_pdf (w : World) (data_dir : string) : run string :=
  let candidates := sorted (glob w (path_join data_dir "*.pdf")) in
  match candidates with
  | [] => Fail (FileNotFoundError ("Ingen PDF funnet i " ++ data_dir
                                   ++ ".")%string)
  | first :: _ => Done first
  end.

End Index.

(** The values stored in the dicts of the pipeline. *)
Inductive value : Type :=
| VStr (s : string)
| VInt (z : Z)
| VNone.

(** A dict with string keys, in insertion order. *)
Definition dict : Type := list (string * value).

(** [d.get(key)] as an option: [None] when the key is absent. *)
Fixpoint dict_lookup (d : dict) (key : string) : option value :=
  match d with
  | [] => None
  | (k, v) :: rest => if (k =? key)%string then Some v
                      else dict_lookup rest key
  end.

(** [d.get(key, default)] *)
Definition dict_get (d : dict) (key : string) (default : value) : value :=
  match dict_lookup d key with
  | Some v => v
  | None => default
  end.

(** The dict literal [chunk_text] builds, which [Chunk] stands for. *)
Definition chunk_dict (c : Chunk) : dict :=
  [ ("text", VStr (text c));
    ("page", VInt (page c));
    ("chunk_id", VStr (chunk_id c));
    ("source", VStr (source c)) ].

(** [Document(text=..., metadata=...)], by its two arguments.  The
    constructor of [llama_index] checks its [text]; this record stands for
    the object it builds from a text that is a string, and the statements
    below use it for such texts only. *)
Record Document : Type := mkDocument {
  doc_text : value;
  doc_metadata : dict
}.

(** The [for c in chunks] loop of [_to_documents]; [c["text"]] raises
    [KeyError] on a dict without that key. *)
Fixpoint to_documents_loop (chunks : list dict) (docs : list Document)
  : run (list Document) :=
  match chunks with
  | [] => Done docs
  | c :: rest =>
      match dict_lookup c "text" with
      | None => Fail (KeyError "text")
      | Some text =>
          let metadata :=
            [ ("page", dict_get c "page" VNone);
              ("chunk_id", dict_get c "chunk_id" VNone);
              ("source", dict_get c "source" (VStr "")) ] in
          to_documents_loop rest (docs ++ [mkDocument text metadata])
      end
  end.

Definition _to_documents (chunks : list dict) : run (list Document) :=
  to_documents_loop chunks [].

(** What [build_index_from_pdf] asks of [llama_index] and of [os]:
    [VectorStoreIndex.from_documents], [os.makedirs(dir, exist_ok=True)]
    and [index.storage_context.persist]; [None] is a call that returns. *)
Record Indexer (Idx : Type) : Type := mkIndexer {
  from_documents : list Document -> pyexn + Idx;
  makedirs : string -> option pyexn;
  persist : Idx -> string -> option pyexn
}.
Arguments from_documents {Idx} _ _.
Arguments makedirs {Idx} _ _.
Arguments persist {Idx} _ _ _.

(** The calls made to the indexer, in order. *)
Inductive call (Idx : Type) : Type :=
| CallFromDocuments (docs : list Document)
| CallMakedirs (dir : string)
| CallPersist (index : Idx) (dir : string).
Arguments CallFromDocuments {Idx} docs.
Arguments CallMakedirs {Idx} dir.
Arguments CallPersist {Idx} index dir.

(** [build_index_from_pdf]: the calls it made and its result. *)
Definition build_index_from_pdf {Idx : Type} (fuel : nat) (w : World)
    (ix : Indexer Idx) (pdf_path : string) (chunk_size overlap : Z)
    (persist_dir : string) : list (call Idx) * run Idx :=
  match load_pdf w pdf_path with
  | Fail e => ([], Fail e)
  | NoFuel => ([], NoFuel)
  | Done pages =>
      match chunk_text fuel pages chunk_size overlap (Some pdf_path) with
      | Raise e => ([], Fail (Invalid e))
      | OutOfFuel => ([], NoFuel)
      | Return chunks =>
          match _to_documents (map chunk_dict chunks) with
          | Fail e => ([], Fail e)
          | NoFuel => ([], NoFuel)
          | Done docs =>
              match from_documents ix docs with
              | inl e => ([CallFromDocuments docs], Fail e)
              | inr index =>
                  match makedirs ix persist_dir with
                  | Some e =>
                      ([CallFromDocuments docs; CallMakedirs persist_dir],
                       Fail e)
                  | None =>
                      match persist ix index persist_dir with
                      | Some e =>
                          ([CallFromDocuments docs; CallMakedirs persist_dir;
                            CallPersist index persist_dir], Fail e)
                      | None =>
                          ([CallFromDocuments docs; CallMakedirs persist_dir;
                            CallPersist index persist_dir], Done index)
                      end
                  end
              end
          end
      end
  end.

(** Every character of [s] is whitespace. *)
Fixpoint all_space (s : string) : bool :=
  match s with
  | EmptyString => true
  | String c s' => Py.isspace c && all_space s'
  end.

(** The first [n] characters of each record's text, concatenated. *)
Definition concat_heads (n : nat) (l : list Chunk) : string :=
  fold_right (fun c acc => (Py.take n (text c) ++ acc)%string) "" l.

(** The text made of [n] copies of the character [c] ([c * n]). *)
Fixpoint repeat_char (n : nat) (c : ascii) : string :=
  match n with
  | O => EmptyString
  | S n' => String c (repeat_char n' c)
  end.

(** The [while] loop of one page once more, reporting in addition whether
    it ended at the [break] ([true]) or at the loop test ([false]). *)
Fixpoint while_page_traced (fuel : nat) (page_text : string)
    (chunk_size step : Z) (i : Z) (src : string) (n idx : Z)
    (chunks : list Chunk) : option (list Chunk * bool) :=
  if idx <? Py.len page_text then
    match fuel with
    | O => None
    | S fuel' =>
        let part := Py.slice page_text idx (idx + chunk_size) in
        if Py.not_ part then Some (chunks, true)
        else
          let chunk := mkChunk part i (format_chunk_id i n) src in
          while_page_traced fuel' page_text chunk_size step i src
                            (n + 1) (idx + step) (chunks ++ [chunk])
    end
  else Some (chunks, false).

(** The "text" entry of the dict [c] is a string, or is absent. *)
Definition text_str_or_absent (c : dict) : bool :=
  match dict_lookup c "text" with
  | Some (VStr _) => true
  | Some _ => false
  | None => true
  end.

(** ** Facts about strings *)

Section StringFacts.

Local Open Scope nat_scope.

Lemma length_app (s t : string) :
  String.length (s ++ t)%string = String.length s + String.length t.
Proof. induction s as [|c s IH]; simpl; [reflexivity | now rewrite IH]. Qed.

Lemma length_take (n : nat) (s : string) :
  String.length (Py.take n s) = Nat.min n (String.length s).
Proof.
  revert s; induction n as [|n IH]; intros [|c s]; simpl; auto.
Qed.

Lemma length_drop (n : nat) (s : string) :
  String.length (Py.drop n s) = String.length s - n.
Proof.
  revert s; induction n as [|n IH]; intros [|c s]; simpl; auto.
Qed.

Lemma take_drop (n : nat) (s : string) :
  (Py.take n s ++ Py.drop n s)%string = s.
Proof.
  revert s; induction n as [|n IH]; intros [|c s]; simpl; auto.
  now rewrite IH.
Qed.

Lemma take_all (n : nat) (s : string) :
  String.length s <= n -> Py.take n s = s.
Proof.
  revert s; induction n as [|n IH]; intros [|c s]; simpl; intros H;
    auto; try lia.
  now rewrite IH by lia.
Qed.

Lemma drop_all (n : nat) (s : string) :
  String.length s <= n -> Py.drop n s = EmptyString.
Proof.
  revert s; induction n as [|n IH]; intros [|c s]; simpl; intros H;
    auto; try lia.
  apply IH; lia.
Qed.

Lemma drop_drop (n m : nat) (s : string) :
  Py.drop m (Py.drop n s) = Py.drop (n + m) s.
Proof.
  revert s; induction n as [|n IH]; intros [|c s]; simpl; auto.
  now destruct m.
Qed.

Lemma take_take (n m : nat) (s : string) :
  Py.take m (Py.take n s) = Py.take (Nat.min m n) s.
Proof.
  revert n s; induction m as [|m IH]; intros [|n] [|c s]; simpl; auto.
  now rewrite IH.
Qed.

Lemma drop_take (n m : nat) (s : string) :
  Py.drop m (Py.take n s) = Py.take (n - m) (Py.drop m s).
Proof.
  revert n s; induction m as [|m IH]; intros [|n] [|c s]; simpl; auto.
  now destruct (n - m).
Qed.

Lemma not_false_iff (s : string) : Py.not_ s = false <-> 0 < String.length s.
Proof. destruct s; simpl; split; intros; try congruence; lia. Qed.

Lemma app_assoc_str (s t u : string) :
  ((s ++ t) ++ u = s ++ (t ++ u))%string.
Proof. induction s as [|c s IH]; simpl; [reflexivity | now rewrite IH]. Qed.

Lemma app_empty_r (s : string) : (s ++ "")%string = s.
Proof. induction s as [|c s IH]; simpl; [reflexivity | now rewrite IH]. Qed.

End StringFacts.

(** A slice with non-negative bounds is a window of the text. *)
Lemma slice_window (s : string) (lo w : Z) :
  0 <= lo -> 0 <= w ->
  Py.slice s lo (lo + w) = Py.take (Z.to_nat w) (Py.drop (Z.to_nat lo) s).
Proof.
  intros Hlo Hw. unfold Py.slice, Py.clip, Py.len.
  destruct (Z.ltb_spec lo 0) as [?|_]; [lia|].
  destruct (Z.ltb_spec (lo + w) 0) as [?|_]; [lia|].
  destruct (Z.le_gt_cases lo (Z.of_nat (String.length s))) as [Hin|Hout].
  - rewrite (Z.min_l lo) by lia.
    destruct (Z.le_gt_cases (lo + w) (Z.of_nat (String.length s))) as [H|H].
    + rewrite Z.min_l by lia. f_equal. lia.
    + rewrite Z.min_r by lia.
      rewrite !take_all; auto; rewrite length_drop; lia.
  - rewrite !drop_all by lia. now destruct (Z.to_nat _), (Z.to_nat _).
Qed.

Lemma len_slice (s : string) (lo w : Z) :
  0 <= lo -> 0 <= w ->
  Py.len (Py.slice s lo (lo + w)) = Z.max 0 (Z.min w (Py.len s - lo)).
Proof.
  intros Hlo Hw. rewrite slice_window by assumption.
  unfold Py.len. rewrite length_take, length_drop. lia.
Qed.

(** ** Arithmetic of the chunk count *)

Lemma ceil_div_le_iff (a b j : Z) :
  0 < b -> ceil_div a b <= j <-> a <= j * b.
Proof.
  intros Hb. unfold ceil_div. split; intros H.
  - pose proof (Z.div_mod (a + b - 1) b ltac:(lia)) as E.
    pose proof (Z.mod_pos_bound (a + b - 1) b Hb) as B. nia.
  - enough ((a + b - 1) / b < j + 1) by lia.
    apply Z.div_lt_upper_bound; lia.
Qed.

Lemma ceil_div_gt_iff (a b j : Z) :
  0 < b -> j < ceil_div a b <-> j * b < a.
Proof. intros Hb. pose proof (ceil_div_le_iff a b j Hb). lia. Qed.

Lemma chunk_count_gt_iff (L step : Z) (j : nat) :
  0 < step -> (j < chunk_count L step)%nat <-> Z.of_nat j * step < L.
Proof.
  intros Hs. unfold chunk_count.
  rewrite <- (ceil_div_gt_iff L step (Z.of_nat j) Hs). lia.
Qed.

Lemma chunk_count_le_length (T : string) (step : Z) :
  0 < step -> (chunk_count (Py.len T) step <= String.length T)%nat.
Proof.
  intros Hs. unfold chunk_count, Py.len.
  assert (ceil_div (Z.of_nat (String.length T)) step
          <= Z.of_nat (String.length T)); [|lia].
  apply ceil_div_le_iff; [assumption | nia].
Qed.

(** ** The loops compute the closed form *)

Section Loops.

Variables (chunk_size step : Z) (src : string).
Hypothesis chunk_size_pos : 0 < chunk_size.
Hypothesis step_pos : 0 < step.

(** A window that starts inside the text is not empty, so the [break] of
    the loop is never taken. *)
Lemma part_not_empty (T : string) (idx : Z) :
  0 <= idx < Py.len T ->
  Py.not_ (Py.slice T idx (idx + chunk_size)) = false.
Proof.
  intros H. apply not_false_iff.
  pose proof (len_slice T idx chunk_size) as E. unfold Py.len in *. lia.
Qed.

(** Invariant of the page loop: entered with sequence number [j] at
    position [j * step], it appends the remaining [r] records. *)
Lemma while_page_from (T : string) (i : Z) (r : nat) :
  forall (j fuel : nat) (chunks : list Chunk),
    (chunk_count (Py.len T) step - j = r)%nat ->
    (r <= fuel)%nat ->
    while_page fuel T chunk_size step i src
               (Z.of_nat j) (Z.of_nat j * step) chunks
    = Some (chunks ++ map (nth_chunk T chunk_size step src i) (seq j r)).
Proof.
  induction r as [|r IH]; intros j fuel chunks Hr Hfuel.
  - assert (~ Z.of_nat j * step < Py.len T) as Hge.
    { rewrite <- chunk_count_gt_iff by assumption. lia. }
    simpl. rewrite app_nil_r.
    destruct fuel; simpl;
      destruct (Z.ltb_spec (Z.of_nat j * step) (Py.len T)); auto; lia.
  - assert (Z.of_nat j * step < Py.len T) as Hlt.
    { rewrite <- chunk_count_gt_iff by assumption. lia. }
    destruct fuel as [|fuel]; [lia|]. simpl.
    destruct (Z.ltb_spec (Z.of_nat j * step) (Py.len T)); [|lia].
    rewrite part_not_empty by lia.
    replace (Z.of_nat j + 1) with (Z.of_nat (S j)) by lia.
    replace (Z.of_nat j * step + step) with (Z.of_nat (S j) * step) by lia.
    rewrite IH by lia. now rewrite <- app_assoc.
Qed.

Lemma while_page_spec (T : string) (i : Z) (fuel : nat)
    (chunks : list Chunk) :
  (String.length T <= fuel)%nat ->
  while_page fuel T chunk_size step i src 0 0 chunks
  = Some (chunks ++ page_chunks T chunk_size step src i).
Proof.
  intros Hfuel.
  pose proof (chunk_count_le_length T step step_pos).
  apply (while_page_from T i _ 0%nat fuel chunks); lia.
Qed.

Lemma for_pages_spec (pages : list string) (fuel : nat) :
  (fuel_for pages <= fuel)%nat ->
  forall (i : Z) (chunks : list Chunk),
    for_pages fuel pages chunk_size step src i chunks
    = Some (chunks ++ doc_chunks pages chunk_size step src i).
Proof.
  unfold fuel_for. rewrite list_max_le.
  induction pages as [|T rest IH]; intros Hfuel i chunks; simpl.
  - now rewrite app_nil_r.
  - inversion Hfuel; subst.
    rewrite while_page_spec by assumption.
    rewrite IH by assumption. now rewrite <- app_assoc.
Qed.

End Loops.

Lemma valid_params_tests (chunk_size overlap : Z) :
  valid_params chunk_size overlap ->
  (chunk_size <=? 0) = false
  /\ ((overlap <? 0) || (overlap >=? chunk_size))%bool = false.
Proof.
  intros [H1 H2]. split; [lia|].
  apply orb_false_iff. split; lia.
Qed.

(** With valid parameters and enough fuel, [chunk_text] returns the closed
    form. *)
Lemma chunk_text_spec (fuel : nat) (pages : list string)
    (chunk_size overlap : Z) (source_path : option string) :
  valid_params chunk_size overlap ->
  (fuel_for pages <= fuel)%nat ->
  chunk_text fuel pages chunk_size overlap source_path
  = Return (doc_chunks pages chunk_size (chunk_size - overlap)
                       (source_or_empty source_path) 1).
Proof.
  intros Hv Hfuel. unfold chunk_text.
  destruct (valid_params_tests _ _ Hv) as [-> ->].
  destruct Hv as [H1 H2].
  now rewrite for_pages_spec by (assumption || lia).
Qed.

(** More fuel never changes a returned list. *)
Lemma while_page_fuel_S (T : string) (chunk_size step i : Z)
    (src : string) (fuel : nat) :
  forall (n idx : Z) (chunks out : list Chunk),
    while_page fuel T chunk_size step i src n idx chunks = Some out ->
    while_page (S fuel) T chunk_size step i src n idx chunks = Some out.
Proof.
  induction fuel as [|fuel IH]; intros n idx chunks out.
  - simpl. destruct (idx <? Py.len T); [discriminate | auto].
  - intros H. simpl in H. cbn [while_page].
    destruct (idx <? Py.len T); [|assumption].
    destruct (Py.not_ _); [assumption|]. now apply IH.
Qed.

Lemma for_pages_fuel_S (pages : list string) (chunk_size step : Z)
    (src : string) (fuel : nat) :
  forall (i : Z) (chunks out : list Chunk),
    for_pages fuel pages chunk_size step src i chunks = Some out ->
    for_pages (S fuel) pages chunk_size step src i chunks = Some out.
Proof.
  induction pages as [|T rest IH]; intros i chunks out; [auto|].
  cbn [for_pages].
  destruct (while_page fuel T chunk_size step i src 0 0 chunks)
    as [chunks'|] eqn:E; [|discriminate].
  rewrite (while_page_fuel_S _ _ _ _ _ _ _ _ _ _ E). apply IH.
Qed.

Lemma chunk_text_fuel_mono (fuel fuel' : nat) (pages : list string)
    (chunk_size overlap : Z) (source_path : option string)
    (out : list Chunk) :
  (fuel <= fuel')%nat ->
  chunk_text fuel pages chunk_size overlap source_path = Return out ->
  chunk_text fuel' pages chunk_size overlap source_path = Return out.
Proof.
  intros Hle. induction Hle as [|fuel' _ IH]; [auto|].
  intros H. specialize (IH H). revert IH. unfold chunk_text.
  destruct (chunk_size <=? 0); [auto|].
  destruct ((overlap <? 0) || (overlap >=? chunk_size))%bool; [auto|].
  destruct (for_pages fuel' _ _ _ _ _ _) as [chunks|] eqn:E;
    [|discriminate].
  now rewrite (for_pages_fuel_S _ _ _ _ _ _ _ _ E).
Qed.

(** ** Structure of the closed form *)

Section ClosedForm.

Variables (chunk_size step : Z) (src : string).

Lemma page_chunks_length (T : string) (i : Z) :
  List.length (page_chunks T chunk_size step src i)
  = chunk_count (Py.len T) step.
Proof. unfold page_chunks. now rewrite length_map, length_seq. Qed.

Lemma page_chunks_nth (T : string) (i : Z) (j : nat) :
  nth_error (page_chunks T chunk_size step src i) j
  = if (j <? chunk_count (Py.len T) step)%nat
    then Some (nth_chunk T chunk_size step src i j) else None.
Proof.
  unfold page_chunks. rewrite nth_error_map, nth_error_seq.
  now destruct (j <? _)%nat.
Qed.

Lemma page_chunks_In (T : string) (i : Z) (c : Chunk) :
  In c (page_chunks T chunk_size step src i) <->
  exists j, (j < chunk_count (Py.len T) step)%nat
            /\ c = nth_chunk T chunk_size step src i j.
Proof.
  unfold page_chunks. rewrite in_map_iff. split.
  - intros (j & <- & Hj). apply in_seq in Hj. exists j. split; [lia|auto].
  - intros (j & Hj & ->). exists j. split; [auto|]. apply in_seq. lia.
Qed.

Lemma page_chunks_page (T : string) (i : Z) (c : Chunk) :
  In c (page_chunks T chunk_size step src i) -> page c = i.
Proof. rewrite page_chunks_In. now intros (j & _ & ->). Qed.

Lemma page_chunks_empty (i : Z) :
  0 < step -> page_chunks "" chunk_size step src i = [].
Proof.
  intros Hs. unfold page_chunks.
  replace (chunk_count (Py.len "") step) with 0%nat; [reflexivity|].
  symmetry. unfold chunk_count.
  assert (ceil_div (Py.len "") step <= 0); [|lia].
  apply ceil_div_le_iff; [assumption | unfold Py.len; simpl; lia].
Qed.

Lemma doc_chunks_app (pre post : list string) (i : Z) :
  doc_chunks (pre ++ post) chunk_size step src i
  = doc_chunks pre chunk_size step src i
    ++ doc_chunks post chunk_size step src (i + Z.of_nat (List.length pre)).
Proof.
  revert i; induction pre as [|T pre IH]; intros i; simpl doc_chunks.
  - simpl. now rewrite Z.add_0_r.
  - rewrite IH, <- app_assoc. do 3 f_equal.
    simpl List.length. lia.
Qed.

Lemma doc_chunks_page_range (pages : list string) (i0 : Z) (c : Chunk) :
  In c (doc_chunks pages chunk_size step src i0) ->
  i0 <= page c < i0 + Z.of_nat (List.length pages).
Proof.
  revert i0; induction pages as [|T rest IH]; intros i0; simpl doc_chunks.
  - intros [].
  - rewrite in_app_iff. intros [H|H].
    + apply page_chunks_page in H. simpl List.length. lia.
    + apply IH in H. simpl List.length. lia.
Qed.

Lemma records_of_page_app (a b : list Chunk) (i : Z) :
  records_of_page (a ++ b) i = records_of_page a i ++ records_of_page b i.
Proof. apply filter_app. Qed.

Lemma records_of_page_all (l : list Chunk) (i : Z) :
  (forall c, In c l -> page c = i) -> records_of_page l i = l.
Proof.
  intros H. apply forallb_filter_id, forallb_forall.
  intros c Hc. apply Z.eqb_eq. auto.
Qed.

Lemma records_of_page_none (l : list Chunk) (i : Z) :
  (forall c, In c l -> page c <> i) -> records_of_page l i = [].
Proof.
  intros H. unfold records_of_page.
  induction l as [|c l IH]; simpl; [reflexivity|].
  destruct (Z.eqb_spec (page c) i) as [E|_].
  - exfalso. apply (H c); simpl; auto.
  - apply IH. intros c' Hc'. apply H. simpl; auto.
Qed.

(** The records carrying the number of the page at position [p] are the
    records of that page, and nothing else. *)
Lemma records_of_page_doc_chunks (pages : list string) :
  forall (i0 : Z) (p : nat) (T : string),
    nth_error pages p = Some T ->
    records_of_page (doc_chunks pages chunk_size step src i0)
                    (i0 + Z.of_nat p)
    = page_chunks T chunk_size step src (i0 + Z.of_nat p).
Proof.
  induction pages as [|T0 rest IH]; intros i0 p T Hp.
  - now destruct p.
  - simpl doc_chunks. rewrite records_of_page_app.
    destruct p as [|p]; simpl in Hp.
    + injection Hp as ->. rewrite Z.add_0_r.
      rewrite records_of_page_all by apply page_chunks_page.
      rewrite records_of_page_none; [apply app_nil_r|].
      intros c Hc. apply doc_chunks_page_range in Hc. lia.
    + rewrite records_of_page_none.
      * replace (i0 + Z.of_nat (S p)) with (i0 + 1 + Z.of_nat p) by lia.
        now apply IH.
      * intros c Hc. apply page_chunks_page in Hc. lia.
Qed.

Lemma records_of_page_outside (pages : list string) (i0 i : Z) :
  ~ (i0 <= i < i0 + Z.of_nat (List.length pages)) ->
  records_of_page (doc_chunks pages chunk_size step src i0) i = [].
Proof.
  intros H. apply records_of_page_none.
  intros c Hc. apply doc_chunks_page_range in Hc. lia.
Qed.

End ClosedForm.

Lemma records_of_page_doc (pages : list string) (chunk_size step : Z)
    (src : string) (p : nat) (T : string) :
  nth_error pages p = Some T ->
  records_of_page (doc_chunks pages chunk_size step src 1) (page_number p)
  = page_chunks T chunk_size step src (page_number p).
Proof.
  intros Hp. unfold page_number.
  replace (Z.of_nat p + 1) with (1 + Z.of_nat p) by lia.
  now apply records_of_page_doc_chunks.
Qed.

(** ** The text of a record *)

Section ChunkText.

Variables (chunk_size step : Z).
Hypothesis chunk_size_pos : 0 < chunk_size.
Hypothesis step_pos : 0 < step.

Lemma nth_chunk_text (T src : string) (i : Z) (j : nat) :
  text (nth_chunk T chunk_size step src i j)
  = Py.take (Z.to_nat chunk_size) (Py.drop (j * Z.to_nat step) T).
Proof.
  unfold nth_chunk; cbn [text].
  rewrite slice_window by lia. do 2 f_equal. nia.
Qed.

Lemma nth_chunk_length (T src : string) (i : Z) (j : nat) :
  String.length (text (nth_chunk T chunk_size step src i j))
  = Nat.min (Z.to_nat chunk_size) (String.length T - j * Z.to_nat step).
Proof. now rewrite nth_chunk_text, length_take, length_drop. Qed.

Lemma chunk_count_gt_nat (T : string) (j : nat) :
  (j < chunk_count (Py.len T) step)%nat
  <-> (j * Z.to_nat step < String.length T)%nat.
Proof.
  rewrite chunk_count_gt_iff by assumption. unfold Py.len. nia.
Qed.

End ChunkText.

Lemma substring_take_drop (n m : nat) (s : string) :
  String.substring n m s = Py.take m (Py.drop n s).
Proof.
  revert s; induction n as [|n IHn]; intros s.
  - cbn [Py.drop]. revert s; induction m as [|m IHm]; intros [|c s]; simpl; auto.
    now rewrite IHm.
  - destruct s as [|c s]; simpl; [now destruct m | apply IHn].
Qed.

Lemma take_add (a b : nat) (s : string) :
  Py.take (a + b) s = (Py.take a s ++ Py.take b (Py.drop a s))%string.
Proof.
  revert s; induction a as [|a IH]; intros s; simpl; auto.
  destruct s as [|c s]; simpl; [now destruct b | now rewrite IH].
Qed.

Lemma get_drop (n k : nat) (s : string) :
  String.get k (Py.drop n s) = String.get (n + k) s.
Proof.
  revert s; induction n as [|n IH]; intros [|c s]; simpl; auto.
Qed.

Lemma get_take (m k : nat) (s : string) :
  (k < m)%nat -> String.get k (Py.take m s) = String.get k s.
Proof.
  revert k s; induction m as [|m IH]; intros k [|c s] H; simpl; auto; try lia.
  destruct k; [reflexivity | apply IH; lia].
Qed.

Lemma source_or_empty_Some (s : string) : source_or_empty (Some s) = s.
Proof. now destruct s. Qed.

Lemma ceil_div_nonneg (L step : Z) : 0 <= L -> 0 < step -> 0 <= ceil_div L step.
Proof.
  intros HL Hs. enough (-1 < ceil_div L step) by lia.
  apply ceil_div_gt_iff; lia.
Qed.

Lemma chunk_count_Z (T : string) (step : Z) :
  0 < step -> Z.of_nat (chunk_count (Py.len T) step) = ceil_div (Py.len T) step.
Proof.
  intros Hs. unfold chunk_count. apply Z2Nat.id, ceil_div_nonneg; [|assumption].
  unfold Py.len; lia.
Qed.

(** Every record of the closed form is the [j]-th record of some page. *)
Lemma In_doc_chunks (pages : list string) (chunk_size step : Z)
    (src : string) (c : Chunk) :
  In c (doc_chunks pages chunk_size step src 1) <->
  exists p T j,
    nth_error pages p = Some T
    /\ (j < chunk_count (Py.len T) step)%nat
    /\ c = nth_chunk T chunk_size step src (page_number p) j.
Proof.
  split.
  - intros Hc. pose proof (doc_chunks_page_range _ _ _ _ _ _ Hc) as Hr.
    set (p := Z.to_nat (page c - 1)).
    destruct (nth_error pages p) as [T|] eqn:Hp.
    + assert (In c (page_chunks T chunk_size step src (page_number p))) as H.
      { rewrite <- (records_of_page_doc pages chunk_size step src p T Hp).
        apply filter_In. split; [assumption|].
        apply Z.eqb_eq. unfold page_number, p. lia. }
      apply page_chunks_In in H. destruct H as (j & Hj & E).
      exists p, T, j. auto.
    + apply nth_error_None in Hp. unfold p in Hp. lia.
  - intros (p & T & j & Hp & Hj & ->).
    assert (In (nth_chunk T chunk_size step src (page_number p) j)
               (records_of_page (doc_chunks pages chunk_size step src 1)
                                (page_number p))) as H.
    { rewrite (records_of_page_doc pages chunk_size step src p T Hp).
      apply page_chunks_In. eauto. }
    now apply filter_In in H.
Qed.

Lemma take_min (n : nat) (s : string) :
  Py.take n s = Py.take (Nat.min n (String.length s)) s.
Proof.
  destruct (Nat.le_gt_cases n (String.length s)).
  - now rewrite Nat.min_l.
  - rewrite Nat.min_r by lia. now rewrite !take_all by lia.
Qed.

(** ** Concatenating the texts of a page's records *)

Lemma concat_texts_page_chunks (T src : string) (chunk_size i : Z) :
  0 < chunk_size ->
  forall (m j0 : nat),
    concat_texts (map (nth_chunk T chunk_size chunk_size src i) (seq j0 m))
    = Py.take (m * Z.to_nat chunk_size)
              (Py.drop (j0 * Z.to_nat chunk_size) T).
Proof.
  intros Hcs. induction m as [|m IH]; intros j0; [reflexivity|].
  cbn [seq map concat_texts fold_right].
  fold (concat_texts
          (map (nth_chunk T chunk_size chunk_size src i) (seq (S j0) m))).
  rewrite IH, nth_chunk_text by assumption.
  replace (Datatypes.S m * Z.to_nat chunk_size)%nat
    with (Z.to_nat chunk_size + m * Z.to_nat chunk_size)%nat by lia.
  rewrite take_add, drop_drop. do 3 f_equal. lia.
Qed.

(** ** Leaving a page's records out *)

Lemma without_page_app (a b : list Chunk) (i : Z) :
  without_page (a ++ b) i = without_page a i ++ without_page b i.
Proof. apply filter_app. Qed.

Lemma without_page_all (l : list Chunk) (i : Z) :
  (forall c, In c l -> page c <> i) -> without_page l i = l.
Proof.
  intros H. apply forallb_filter_id, forallb_forall.
  intros c Hc. apply negb_true_iff, Z.eqb_neq. auto.
Qed.

Lemma without_page_none (l : list Chunk) (i : Z) :
  (forall c, In c l -> page c = i) -> without_page l i = [].
Proof.
  intros H. unfold without_page.
  induction l as [|c l IH]; simpl; [reflexivity|].
  rewrite (H c) by (simpl; auto). rewrite Z.eqb_refl. simpl.
  apply IH. intros c' Hc'. apply H. simpl; auto.
Qed.

Lemma adjacent_nth_error {A : Type} (l front back : list A) (a b : A) :
  l = front ++ a :: b :: back ->
  nth_error l (List.length front) = Some a
  /\ nth_error l (Datatypes.S (List.length front)) = Some b
  /\ List.length l = (List.length front + 2 + List.length back)%nat.
Proof.
  intros ->. repeat split.
  - rewrite nth_error_app2 by lia. now rewrite Nat.sub_diag.
  - rewrite nth_error_app2 by lia.
    now replace (Datatypes.S (List.length front) - List.length front)%nat
      with 1%nat by lia.
  - rewrite List.length_app. simpl. lia.
Qed.

(** ** Decimal page and sequence numbers *)

Lemma string_of_uint_no_dash (d : Decimal.uint) :
  has_dash (NilEmpty.string_of_uint d) = false.
Proof. induction d; simpl; auto. Qed.

Lemma str_no_dash (z : Z) : 0 <= z -> has_dash (Py.str z) = false.
Proof.
  intros Hz. unfold Py.str. destruct z as [|q|q]; [reflexivity | | lia].
  cbn [Z.to_int NilZero.string_of_int]. unfold NilZero.string_of_uint.
  destruct (Pos.to_uint q); try apply string_of_uint_no_dash. reflexivity.
Qed.

Lemma to_int_not_nil (z : Z) :
  Z.to_int z <> Decimal.Pos Decimal.Nil /\ Z.to_int z <> Decimal.Neg Decimal.Nil.
Proof.
  destruct z as [|q|q]; cbn [Z.to_int]; split; try discriminate;
    intros [= E]; now apply (DecimalPos.Unsigned.to_uint_nonnil q).
Qed.

Lemma str_inj (z z' : Z) : Py.str z = Py.str z' -> z = z'.
Proof.
  unfold Py.str. intros E. apply DecimalZ.to_int_inj.
  destruct (to_int_not_nil z) as [H1 H2], (to_int_not_nil z') as [H1' H2'].
  pose proof (NilZero.isi _ H1 H2) as I.
  pose proof (NilZero.isi _ H1' H2') as I'.
  rewrite E in I. congruence.
Qed.

Lemma split_at_dash (a a' b b' : string) :
  has_dash a = false -> has_dash a' = false ->
  (a ++ "-" ++ b)%string = (a' ++ "-" ++ b')%string ->
  a = a' /\ b = b'.
Proof.
  revert a'; induction a as [|c a IH]; intros [|c' a'] Ha Ha' E;
    simpl in *.
  - injection E as E. auto.
  - injection E as <- _. simpl in Ha'. discriminate.
  - injection E as -> _. simpl in Ha. discriminate.
  - injection E as <- E.
    apply orb_false_iff in Ha, Ha'.
    destruct (IH a') as [-> ->]; tauto.
Qed.

Lemma format_chunk_id_inj (i i' n n' : Z) :
  0 <= i -> 0 <= i' ->
  format_chunk_id i n = format_chunk_id i' n' -> i = i' /\ n = n'.
Proof.
  intros Hi Hi' E. unfold format_chunk_id in E.
  apply split_at_dash in E; try now apply str_no_dash.
  destruct E as [E1 E2]. split; now apply str_inj.
Qed.

Lemma doc_chunks_id (pages : list string) (chunk_size step : Z)
    (src : string) (i0 : Z) (c : Chunk) :
  In c (doc_chunks pages chunk_size step src i0) ->
  exists j : nat, chunk_id c = format_chunk_id (page c) (Z.of_nat j).
Proof.
  revert i0; induction pages as [|T rest IH]; intros i0; simpl doc_chunks.
  - intros [].
  - rewrite in_app_iff. intros [H|H]; [|now apply IH in H].
    apply page_chunks_In in H. destruct H as (j & _ & ->). now exists j.
Qed.

Lemma page_chunks_ids_NoDup (T : string) (chunk_size step : Z)
    (src : string) (i : Z) :
  0 <= i -> NoDup (map chunk_id (page_chunks T chunk_size step src i)).
Proof.
  intros Hi. unfold page_chunks. rewrite map_map. cbn [chunk_id nth_chunk].
  apply NoDup_map_NoDup_ForallPairs; [|apply seq_NoDup].
  intros j j' _ _ E. apply format_chunk_id_inj in E; try assumption. lia.
Qed.

Lemma doc_chunks_ids_NoDup (pages : list string) (chunk_size step : Z)
    (src : string) :
  forall i0, 0 <= i0 ->
    NoDup (map chunk_id (doc_chunks pages chunk_size step src i0)).
Proof.
  induction pages as [|T rest IH]; intros i0 Hi0; simpl doc_chunks.
  - constructor.
  - rewrite map_app. apply NoDup_app.
    + now apply page_chunks_ids_NoDup.
    + apply IH. lia.
    + intros x Hx Hx'.
      apply in_map_iff in Hx. destruct Hx as (c & <- & Hc).
      apply in_map_iff in Hx'. destruct Hx' as (c' & E & Hc').
      apply page_chunks_In in Hc. destruct Hc as (j & _ & ->).
      pose proof (doc_chunks_page_range _ _ _ _ _ _ Hc') as Hr.
      apply doc_chunks_id in Hc'. destruct Hc' as (j' & E').
      rewrite E' in E. cbn [chunk_id nth_chunk] in E.
      apply format_chunk_id_inj in E; lia.
Qed.

(** ** The normaliser *)

Section Normaliser.

Lemma starts_space_lstrip (s : string) : starts_space (Py.lstrip s) = false.
Proof.
  induction s as [|c s IH]; simpl; [reflexivity|].
  destruct (Py.isspace c) eqn:E; [assumption | simpl; assumption].
Qed.

Lemma lstrip_id (s : string) : starts_space s = false -> Py.lstrip s = s.
Proof. destruct s as [|c s]; simpl; [reflexivity | now intros ->]. Qed.

Lemma ends_space_rstrip (s : string) : ends_space (Py.rstrip s) = false.
Proof.
  induction s as [|c s IH]; simpl; [reflexivity|].
  destruct (Py.rstrip s) as [|d r].
  - destruct (Py.isspace c) eqn:E; simpl; auto.
  - exact IH.
Qed.

Lemma starts_space_rstrip (s : string) :
  starts_space s = false -> starts_space (Py.rstrip s) = false.
Proof.
  destruct s as [|c s]; simpl; [reflexivity|]. intros E.
  destruct (Py.rstrip s); [rewrite E|]; simpl; assumption.
Qed.

Lemma strip_trimmed (s : string) :
  starts_space (Py.strip s) = false /\ ends_space (Py.strip s) = false.
Proof.
  unfold Py.strip. split.
  - apply starts_space_rstrip, starts_space_lstrip.
  - apply ends_space_rstrip.
Qed.

Lemma collapse_runs_cons (c : ascii) (t : string) :
  collapse_runs (String c t)
  = if Py.isspace c
    then (if starts_space t then collapse_runs t
          else String " " (collapse_runs t))
    else String c (collapse_runs t).
Proof. reflexivity. Qed.

Lemma collapse_runs_space (c : ascii) (t : string) :
  Py.isspace c = true ->
  collapse_runs (String c t) = String " " (collapse_runs (Py.lstrip t)).
Proof.
  revert c. induction t as [|d t IH]; intros c Hc.
  - simpl. now rewrite Hc.
  - rewrite collapse_runs_cons, Hc. cbn [starts_space Py.lstrip].
    destruct (Py.isspace d) eqn:Hd; [now apply IH | reflexivity].
Qed.

Lemma not_app_char (cur : string) (c : ascii) :
  Py.not_ (cur ++ String c EmptyString)%string = false.
Proof. now destruct cur. Qed.

Lemma ends_space_tail (c : ascii) (t : string) :
  ends_space (String c t) = false -> ends_space t = false.
Proof. destruct t; simpl; auto. Qed.

Lemma split_from_not_nil (t : string) :
  forall cur, ends_space t = false -> t <> EmptyString ->
              Py.split_from cur t <> [].
Proof.
  induction t as [|c t IH]; intros cur He Hne; [congruence|].
  pose proof (ends_space_tail c t He) as He'.
  cbn [Py.split_from]. destruct (Py.isspace c) eqn:Hc.
  - assert (t <> EmptyString) as Hn.
    { intros ->. simpl in He. congruence. }
    destruct (Py.not_ cur); [now apply IH | discriminate].
  - destruct t as [|d t].
    + simpl. now rewrite not_app_char.
    + apply IH; [assumption | discriminate].
Qed.

Lemma join_cons (sep w : string) (ws : list string) :
  ws <> [] ->
  Py.join sep (w :: ws) = (w ++ sep ++ Py.join sep ws)%string.
Proof. destruct ws; [congruence | reflexivity]. Qed.

(** What the scanner of [split] and [join] produce together, on a text
    that does not end in whitespace. *)
Lemma join_split_from (t : string) :
  forall cur, ends_space t = false ->
    Py.join " " (Py.split_from cur t)
    = if Py.not_ cur then collapse_runs (Py.lstrip t)
      else (cur ++ collapse_runs t)%string.
Proof.
  induction t as [|c t IH]; intros cur He.
  - destruct cur; simpl; [reflexivity | now rewrite app_empty_r].
  - pose proof (ends_space_tail c t He) as He'.
    cbn [Py.split_from Py.lstrip]. destruct (Py.isspace c) eqn:Hc.
    + assert (t <> EmptyString) as Hn.
      { intros ->. simpl in He. congruence. }
      destruct (Py.not_ cur) eqn:Hcur.
      * now rewrite IH.
      * rewrite join_cons by now apply split_from_not_nil.
        rewrite IH by assumption. cbn [Py.not_].
        now rewrite collapse_runs_space.
    + rewrite IH by assumption. rewrite not_app_char.
      cbn [collapse_runs]. rewrite Hc.
      destruct cur; [reflexivity|]. cbn [Py.not_].
      now rewrite app_assoc_str.
Qed.

Lemma clean_text_refines (s : string) : _clean_text s = normalize_by_spec s.
Proof.
  unfold _clean_text, normalize_by_spec, Py.split.
  destruct (strip_trimmed s) as [Hs He].
  rewrite join_split_from by assumption. cbn [Py.not_].
  now rewrite lstrip_id.
Qed.

Lemma starts_space_collapse (t : string) :
  starts_space (collapse_runs t) = starts_space t.
Proof.
  induction t as [|c t IH]; [reflexivity|].
  cbn [collapse_runs starts_space]. destruct (Py.isspace c) eqn:Hc.
  - destruct (starts_space t) eqn:Ht; [now rewrite IH | reflexivity].
  - simpl. assumption.
Qed.

Lemma not_collapse (t : string) : Py.not_ (collapse_runs t) = Py.not_ t.
Proof.
  induction t as [|c t IH]; [reflexivity|].
  cbn [collapse_runs]. destruct (Py.isspace c).
  - destruct (starts_space t) eqn:Ht; [|reflexivity].
    rewrite IH. now destruct t.
  - reflexivity.
Qed.

Lemma ends_space_cons (c : ascii) (t : string) :
  Py.not_ t = false -> ends_space (String c t) = ends_space t.
Proof. now destruct t. Qed.

Lemma ends_space_collapse (t : string) :
  ends_space (collapse_runs t) = ends_space t.
Proof.
  induction t as [|c t IH]; [reflexivity|].
  destruct t as [|d t].
  - simpl. now destruct (Py.isspace c) eqn:Hc.
  - rewrite (ends_space_cons c (String d t)) by reflexivity.
    assert (Py.not_ (collapse_runs (String d t)) = false) as Hn
        by now rewrite not_collapse.
    cbn [collapse_runs] in *. destruct (Py.isspace c).
    + destruct (starts_space (String d t)); [assumption|].
      now rewrite ends_space_cons.
    + now rewrite ends_space_cons.
Qed.

Lemma single_spaced_collapse (t : string) :
  single_spaced (collapse_runs t) = true.
Proof.
  induction t as [|c t IH]; [reflexivity|].
  cbn [collapse_runs]. destruct (Py.isspace c) eqn:Hc.
  - destruct (starts_space t) eqn:Ht; [assumption|].
    cbn [single_spaced]. rewrite starts_space_collapse, Ht, IH.
    reflexivity.
  - cbn [single_spaced]. now rewrite Hc, IH.
Qed.

End Normaliser.

(** ** Pages that show the thresholds are exact *)

Lemma length_repeat_char (n : nat) (c : ascii) :
  String.length (repeat_char n c) = n.
Proof. induction n as [|n IH]; simpl; [reflexivity | now rewrite IH]. Qed.

Lemma fuel_for_single (T : string) : (fuel_for [T] <= String.length T)%nat.
Proof. unfold fuel_for. simpl. lia. Qed.

Lemma single_page_records (T : string) (chunk_size step : Z) (src : string) :
  records_of_page (doc_chunks [T] chunk_size step src 1) 1
  = page_chunks T chunk_size step src 1.
Proof. exact (records_of_page_doc [T] chunk_size step src 0 T eq_refl). Qed.

Lemma nth_chunk_seq_inj (T : string) (chunk_size step : Z) (src : string)
    (i : Z) (j j' : nat) :
  0 <= i ->
  nth_chunk T chunk_size step src i j = nth_chunk T chunk_size step src i j' ->
  j = j'.
Proof.
  intros Hi E. apply (f_equal chunk_id) in E. cbn [chunk_id nth_chunk] in E.
  apply format_chunk_id_inj in E; lia.
Qed.

(** * The claims *)

(** C1. The worked scenario: pages ["abcdefghij"], chunk_size 4, overlap 2
    and source "doc.pdf" give exactly the five records with texts "abcd",
    "cdef", "efgh", "ghij", "ij", ids "1-0" to "1-4", page 1 and source
    "doc.pdf", in this order. *)
Theorem C1_end_to_end_scenario (fuel : nat) :
  (fuel_for ["abcdefghij"] <= fuel)%nat ->
  chunk_text fuel ["abcdefghij"] 4 2 (Some "doc.pdf")
  = Return [ mkChunk "abcd" 1 "1-0" "doc.pdf";
             mkChunk "cdef" 1 "1-1" "doc.pdf";
             mkChunk "efgh" 1 "1-2" "doc.pdf";
             mkChunk "ghij" 1 "1-3" "doc.pdf";
             mkChunk "ij" 1 "1-4" "doc.pdf" ].
Proof.
  intros Hfuel. rewrite chunk_text_spec; [reflexivity | | assumption].
  unfold valid_params; lia.
Qed.

Lemma C1_end_to_end_scenario_witness :
  (fuel_for ["abcdefghij"] <= 10)%nat
  /\ chunk_text 10 ["abcdefghij"] 4 2 (Some "doc.pdf")
     = Return [ mkChunk "abcd" 1 "1-0" "doc.pdf";
                mkChunk "cdef" 1 "1-1" "doc.pdf";
                mkChunk "efgh" 1 "1-2" "doc.pdf";
                mkChunk "ghij" 1 "1-3" "doc.pdf";
                mkChunk "ij" 1 "1-4" "doc.pdf" ].
Proof.
  split; [vm_compute; lia | apply C1_end_to_end_scenario; vm_compute; lia].
Defined.

(** C2, as stated, fails.  On the ten-character page of the worked scenario
    (chunk_size 4, overlap 2) the code returns five records where the
    formula gives four, and on the page "ab" with chunk_size 3 and overlap 2
    (so [L <= overlap]) it returns two records where the claim says one. *)
Lemma C2_count_formula_counterexample :
  (exists out,
      valid_params 4 2 /\ 0 < Py.len "abcdefghij"
      /\ chunk_text 10 ["abcdefghij"] 4 2 None = Return out
      /\ Z.of_nat (List.length (records_of_page out 1)) = 5
      /\ claimed_count (Py.len "abcdefghij") 4 2 = 4
      /\ Z.of_nat (List.length (records_of_page out 1))
         <> claimed_count (Py.len "abcdefghij") 4 2)
  /\ (exists out,
      valid_params 3 2 /\ 0 < Py.len "ab"
      /\ chunk_text 2 ["ab"] 3 2 None = Return out
      /\ Z.of_nat (List.length (records_of_page out 1)) = 2
      /\ claimed_count (Py.len "ab") 3 2 = 1
      /\ Z.of_nat (List.length (records_of_page out 1))
         <> claimed_count (Py.len "ab") 3 2).
Proof.
  split; eexists; (split; [unfold valid_params; lia|]);
    (split; [reflexivity|]); (split; [reflexivity|]);
    (split; [reflexivity|]); (split; [reflexivity|]); discriminate.
Qed.

(** C2, amended.  For valid parameters the number of records of a page of
    length [L] is [ceil (L / (chunk_size - overlap))], for every [L]; with
    [overlap = 0] and [L > 0] this is the value of the claimed formula. *)
Theorem C2_chunk_count (fuel : nat) (pages : list string)
    (chunk_size overlap : Z) (source_path : option string)
    (p : nat) (T : string) :
  valid_params chunk_size overlap ->
  (fuel_for pages <= fuel)%nat ->
  nth_error pages p = Some T ->
  exists out,
    chunk_text fuel pages chunk_size overlap source_path = Return out
    /\ Z.of_nat (List.length (records_of_page out (page_number p)))
       = ceil_div (Py.len T) (chunk_size - overlap)
    /\ (overlap = 0 -> 0 < Py.len T ->
        ceil_div (Py.len T) (chunk_size - overlap)
        = claimed_count (Py.len T) chunk_size overlap).
Proof.
  intros Hv Hfuel Hp. eexists. split; [now apply chunk_text_spec|].
  destruct Hv as [H1 H2]. split.
  - rewrite (records_of_page_doc _ _ _ _ p T Hp), page_chunks_length.
    apply chunk_count_Z. lia.
  - intros -> HL. unfold claimed_count.
    destruct (Z.ltb_spec 0 (Py.len T)); [|lia].
    now rewrite !Z.sub_0_r.
Qed.

Lemma C2_chunk_count_witness :
  exists out,
    chunk_text 10 ["abcdefghij"] 4 2 None = Return out
    /\ Z.of_nat (List.length (records_of_page out (page_number 0)))
       = ceil_div (Py.len "abcdefghij") (4 - 2)
    /\ (2 = 0 -> 0 < Py.len "abcdefghij" ->
        ceil_div (Py.len "abcdefghij") (4 - 2)
        = claimed_count (Py.len "abcdefghij") 4 2).
Proof.
  apply (C2_chunk_count 10 ["abcdefghij"] 4 2 None 0 "abcdefghij").
  - unfold valid_params; lia.
  - vm_compute; lia.
  - reflexivity.
Defined.

(** C3, as stated, fails.  With chunk_size 4 and overlap 3 the page
    "abcdefghij" gives ten records; the one with id "1-7" has the
    three-character text "hij" and is followed by two more records of the
    same page. *)
Lemma C3_short_not_final_counterexample :
  exists out c,
    valid_params 4 3
    /\ chunk_text 10 ["abcdefghij"] 4 3 None = Return out
    /\ nth_error out 7 = Some c
    /\ text c = "hij"
    /\ Py.len (text c) < 4
    /\ ~ final_of_page out c.
Proof.
  eexists. eexists.
  split; [unfold valid_params; lia|].
  split; [reflexivity|]. split; [reflexivity|]. split; [reflexivity|].
  split; [reflexivity|].
  intros [front E]. vm_compute in E.
  match type of E with
  | [?c0; ?c1; ?c2; ?c3; ?c4; ?c5; ?c6; ?c7; ?c8; ?c9] = _ =>
      change ([c0; c1; c2; c3; c4; c5; c6; c7; c8] ++ [c9] = front ++ [c7])
        in E
  end.
  apply app_inj_tail in E. destruct E as [_ E]. discriminate E.
Qed.

(** C3, amended.  For valid parameters every record's text is a substring
    of the text of the page whose number it carries, of length at most
    [chunk_size]; a text shorter than [chunk_size] reaches the end of its
    page's text (it is a suffix of it), and when [overlap <= 1] such a
    record is the final record of its page.  The bound on the overlap is
    exact: for every valid [overlap >= 2] the page of
    [2 * chunk_size - overlap - 1] characters has a shorter record that is
    not the final one. *)
Theorem C3_chunk_length_bound (fuel : nat) (pages : list string)
    (chunk_size overlap : Z) (source_path : option string) :
  valid_params chunk_size overlap ->
  (fuel_for pages <= fuel)%nat ->
  (exists out,
      chunk_text fuel pages chunk_size overlap source_path = Return out
      /\ forall c, In c out ->
         exists (p : nat) (T : string),
           nth_error pages p = Some T
           /\ page c = page_number p
           /\ is_substring (text c) T
           /\ Py.len (text c) <= chunk_size
           /\ (Py.len (text c) < chunk_size -> is_suffix (text c) T)
           /\ (Py.len (text c) < chunk_size -> overlap <= 1 ->
               final_of_page out c))
  /\ (2 <= overlap ->
      exists (T : string) (out : list Chunk) (c : Chunk),
        Py.len T = 2 * chunk_size - overlap - 1
        /\ chunk_text (String.length T) [T] chunk_size overlap source_path
           = Return out
        /\ In c out
        /\ Py.len (text c) < chunk_size
        /\ ~ final_of_page out c).
Proof.
  intros Hv Hfuel.
  pose proof Hv as [Hcs Hov].
  split.
  - eexists. split; [now apply chunk_text_spec|].
    set (step := chunk_size - overlap).
    assert (0 < step) as Hstep by (unfold step; lia).
    intros c Hc. pose proof Hc as Hc'.
    apply In_doc_chunks in Hc'. destruct Hc' as (p & T & j & Hp & Hj & ->).
    exists p, T. split; [assumption|]. split; [reflexivity|].
    unfold Py.len. rewrite nth_chunk_length by assumption.
    rewrite nth_chunk_text by assumption.
    set (K := Z.to_nat chunk_size). set (a := (j * Z.to_nat step)%nat).
    repeat split.
    + exists (Py.take a T), (Py.drop K (Py.drop a T)).
      now rewrite !take_drop.
    + unfold K. lia.
    + intros Hshort. exists (Py.take a T).
      rewrite (take_all K) by (rewrite length_drop; unfold K in *; lia).
      now rewrite take_drop.
    + intros Hshort Hsmall. unfold final_of_page. cbn [page nth_chunk].
      rewrite (records_of_page_doc _ _ _ _ p T Hp).
      exists (map (nth_chunk T chunk_size step (source_or_empty source_path)
                             (page_number p)) (seq 0 j)).
      unfold page_chunks.
      replace (chunk_count (Py.len T) step) with (Datatypes.S j).
      * now rewrite seq_S, map_app.
      * pose proof (chunk_count_gt_nat step Hstep T (Datatypes.S j)) as H.
        assert (Z.to_nat step + 1 >= K)%nat by (unfold step, K; lia).
        unfold a, K in *. lia.
  - intros Hbig.
    set (step := chunk_size - overlap).
    assert (0 < step) as Hstep by (unfold step; lia).
    set (T := repeat_char (Z.to_nat (2 * chunk_size - overlap - 1)) "a").
    assert (String.length T = Z.to_nat (2 * chunk_size - overlap - 1))
      as HT by apply length_repeat_char.
    set (src := source_or_empty source_path).
    exists T, (doc_chunks [T] chunk_size step src 1),
      (nth_chunk T chunk_size step src 1 1).
    assert (1 < chunk_count (Py.len T) step)%nat as H1.
    { apply chunk_count_gt_nat; [assumption|]. unfold step. lia. }
    assert (2 < chunk_count (Py.len T) step)%nat as H2.
    { apply chunk_count_gt_nat; [assumption|]. unfold step. lia. }
    split; [unfold Py.len; lia|].
    split; [apply chunk_text_spec; [assumption | apply fuel_for_single]|].
    split; [apply In_doc_chunks; exists 0%nat, T, 1%nat; now repeat split|].
    split.
    + unfold Py.len. rewrite nth_chunk_length by assumption.
      unfold step. lia.
    + intros [front E]. cbn [page nth_chunk] in E.
      rewrite single_page_records in E. unfold page_chunks in E.
      destruct (chunk_count (Py.len T) step) as [|m]; [lia|].
      rewrite seq_S, map_app in E. cbn [map Nat.add] in E.
      apply app_inj_tail in E. destruct E as [_ E].
      apply nth_chunk_seq_inj in E; lia.
Qed.

Lemma C3_chunk_length_bound_witness :
  (exists out,
      chunk_text 10 ["abcdefghij"] 4 3 None = Return out
      /\ forall c, In c out ->
         exists (p : nat) (T : string),
           nth_error ["abcdefghij"] p = Some T
           /\ page c = page_number p
           /\ is_substring (text c) T
           /\ Py.len (text c) <= 4
           /\ (Py.len (text c) < 4 -> is_suffix (text c) T)
           /\ (Py.len (text c) < 4 -> 3 <= 1 -> final_of_page out c))
  /\ (2 <= 3 ->
      exists (T : string) (out : list Chunk) (c : Chunk),
        Py.len T = 2 * 4 - 3 - 1
        /\ chunk_text (String.length T) [T] 4 3 None = Return out
        /\ In c out
        /\ Py.len (text c) < 4
        /\ ~ final_of_page out c).
Proof.
  apply (C3_chunk_length_bound 10 ["abcdefghij"] 4 3 None).
  - unfold valid_params; lia.
  - vm_compute; lia.
Defined.

(** C4, as stated, fails.  With chunk_size 4 and overlap 3 the records
    "1-7" and "1-8" of the page "abcdefghij" are consecutive, the later one
    is not the final record of the page ("1-9" follows), and the last three
    characters of "hij" are not the first three of "ij". *)
Lemma C4_overlap_counterexample :
  exists out front a b back,
    valid_params 4 3
    /\ chunk_text 10 ["abcdefghij"] 4 3 None = Return out
    /\ records_of_page out 1 = front ++ a :: b :: back
    /\ back <> []
    /\ text a = "hij" /\ text b = "ij"
    /\ last_chars 3 (text a) <> Py.take 3 (text b).
Proof.
  eexists. exists (firstn 7 (doc_chunks ["abcdefghij"] 4 1 "" 1)).
  do 3 eexists.
  split; [unfold valid_params; lia|].
  split; [reflexivity|]. split; [reflexivity|].
  split; [discriminate|]. split; [reflexivity|]. split; [reflexivity|].
  discriminate.
Qed.

(** C4, amended.  For valid parameters and consecutive records [a], [b] of
    a page: what is left of [a]'s text after its first [step] characters is
    the first [overlap] characters of [b]'s text; when [a] has the full
    length [chunk_size] these are exactly [overlap] characters, the last
    [overlap] of [a]; and when [2 * overlap <= chunk_size + 1] every pair
    whose later element is not the page's final record is such a pair.
    The bound is exact: for every valid overlap with
    [2 * overlap >= chunk_size + 2] the page of
    [2 * (chunk_size - overlap) + 1] characters has a pair whose later
    element is not final and whose texts do not share [overlap]
    characters. *)
Theorem C4_overlap_invariant (fuel : nat) (pages : list string)
    (chunk_size overlap : Z) (source_path : option string)
    (p : nat) (T : string) :
  valid_params chunk_size overlap ->
  (fuel_for pages <= fuel)%nat ->
  nth_error pages p = Some T ->
  (exists out,
      chunk_text fuel pages chunk_size overlap source_path = Return out
      /\ forall (front back : list Chunk) (a b : Chunk),
         records_of_page out (page_number p) = front ++ a :: b :: back ->
         Py.drop (Z.to_nat (chunk_size - overlap)) (text a)
         = Py.take (Z.to_nat overlap) (text b)
         /\ (Py.len (text a) = chunk_size ->
             last_chars (Z.to_nat overlap) (text a)
             = Py.take (Z.to_nat overlap) (text b)
             /\ Py.len (Py.take (Z.to_nat overlap) (text b)) = overlap)
         /\ (2 * overlap <= chunk_size + 1 -> back <> [] ->
             Py.len (text a) = chunk_size))
  /\ (chunk_size + 2 <= 2 * overlap ->
      exists (T' : string) (out : list Chunk) (front back : list Chunk)
             (a b : Chunk),
        Py.len T' = 2 * (chunk_size - overlap) + 1
        /\ chunk_text (String.length T') [T'] chunk_size overlap source_path
           = Return out
        /\ records_of_page out 1 = front ++ a :: b :: back
        /\ back <> []
        /\ last_chars (Z.to_nat overlap) (text a)
           <> Py.take (Z.to_nat overlap) (text b)).
Proof.
  intros Hv Hfuel Hp. pose proof Hv as [Hcs Hov]. split.
  - eexists. split; [now apply chunk_text_spec|].
    set (step := chunk_size - overlap).
    assert (0 < step) as Hstep by (unfold step; lia).
    intros front back a b E.
    rewrite (records_of_page_doc _ _ _ _ p T Hp) in E.
    apply adjacent_nth_error in E. destruct E as (Ea & Eb & Elen).
    rewrite page_chunks_length in Elen.
    rewrite page_chunks_nth in Ea, Eb.
    destruct (Nat.ltb_spec (List.length front)
                           (chunk_count (Py.len T) step)); [|lia].
    destruct (Nat.ltb_spec (Datatypes.S (List.length front))
                           (chunk_count (Py.len T) step)); [|lia].
    injection Ea as <-. injection Eb as <-.
    set (j := List.length front) in *.
    set (K := Z.to_nat chunk_size). set (S := Z.to_nat step).
    set (O := Z.to_nat overlap).
    assert (K = S + O)%nat as HK by (unfold K, S, O, step; lia).
    assert (Py.drop S (text (nth_chunk T chunk_size step
                               (source_or_empty source_path)
                               (page_number p) j))
            = Py.take O (text (nth_chunk T chunk_size step
                                 (source_or_empty source_path)
                                 (page_number p) (Datatypes.S j))))
      as Hshare.
    { rewrite !nth_chunk_text by assumption. fold K S.
      rewrite drop_take, drop_drop, take_take.
      f_equal; [lia | f_equal; lia]. }
    split; [exact Hshare|]. split.
    + intros Hfull. rewrite <- Hshare. unfold last_chars, Py.len in *.
      split.
      * f_equal. fold S. lia.
      * rewrite length_drop. fold S. lia.
    + intros Hhalf Hback. unfold Py.len.
      rewrite nth_chunk_length by assumption. fold K S.
      assert (Datatypes.S (Datatypes.S j) < chunk_count (Py.len T) step)%nat
        as Hnext.
      { destruct back; [congruence | simpl in Elen; lia]. }
      apply chunk_count_gt_nat in Hnext; [|assumption]. fold S in Hnext.
      assert (O <= S + 1)%nat by (unfold O, S, step; lia).
      unfold K. lia.
  - intros Hbig.
    set (step := chunk_size - overlap).
    assert (0 < step) as Hstep by (unfold step; lia).
    set (T' := repeat_char (Z.to_nat (2 * step + 1)) "a").
    assert (String.length T' = Z.to_nat (2 * step + 1))
      as HT by apply length_repeat_char.
    set (src := source_or_empty source_path).
    assert (chunk_count (Py.len T') step = 3%nat) as Hcount.
    { pose proof (chunk_count_gt_nat step Hstep T' 2) as H2.
      pose proof (chunk_count_gt_nat step Hstep T' 3) as H3. lia. }
    exists T', (doc_chunks [T'] chunk_size step src 1), [],
      [nth_chunk T' chunk_size step src 1 2],
      (nth_chunk T' chunk_size step src 1 0),
      (nth_chunk T' chunk_size step src 1 1).
    split; [unfold Py.len, step in *; lia|].
    split; [apply chunk_text_spec; [assumption | apply fuel_for_single]|].
    split.
    { rewrite single_page_records. unfold page_chunks.
      now rewrite Hcount. }
    split; [discriminate|].
    intros E. apply (f_equal String.length) in E.
    unfold last_chars in E.
    rewrite length_drop, length_take, !nth_chunk_length in E by assumption.
    unfold step in *. lia.
Qed.

Lemma C4_overlap_invariant_witness :
  (exists out,
      chunk_text 10 ["abcdefghij"] 4 3 None = Return out
      /\ forall (front back : list Chunk) (a b : Chunk),
         records_of_page out (page_number 0) = front ++ a :: b :: back ->
         Py.drop (Z.to_nat (4 - 3)) (text a) = Py.take (Z.to_nat 3) (text b)
         /\ (Py.len (text a) = 4 ->
             last_chars (Z.to_nat 3) (text a) = Py.take (Z.to_nat 3) (text b)
             /\ Py.len (Py.take (Z.to_nat 3) (text b)) = 3)
         /\ (2 * 3 <= 4 + 1 -> back <> [] -> Py.len (text a) = 4))
  /\ (4 + 2 <= 2 * 3 ->
      exists (T' : string) (out : list Chunk) (front back : list Chunk)
             (a b : Chunk),
        Py.len T' = 2 * (4 - 3) + 1
        /\ chunk_text (String.length T') [T'] 4 3 None = Return out
        /\ records_of_page out 1 = front ++ a :: b :: back
        /\ back <> []
        /\ last_chars (Z.to_nat 3) (text a) <> Py.take (Z.to_nat 3) (text b)).
Proof.
  apply (C4_overlap_invariant 10 ["abcdefghij"] 4 3 None 0 "abcdefghij").
  - unfold valid_params; lia.
  - vm_compute; lia.
  - reflexivity.
Defined.

(** C5. [chunk_text] raises [ValueError] exactly when [chunk_size <= 0],
    [overlap < 0] or [overlap >= chunk_size]; it does so for every list of
    pages (the empty one included) and before the loops run (with no fuel
    at all), and then returns no list; with valid parameters it raises
    nothing and, given the fuel to finish, returns a list. *)
Theorem C5_parameter_validation (fuel : nat) (pages : list string)
    (chunk_size overlap : Z) (source_path : option string) :
  ((chunk_size <= 0 \/ overlap < 0 \/ overlap >= chunk_size) <->
   exists msg,
     chunk_text fuel pages chunk_size overlap source_path
     = Raise (ValueError msg))
  /\ ((chunk_size <= 0 \/ overlap < 0 \/ overlap >= chunk_size) ->
      forall out,
        chunk_text fuel pages chunk_size overlap source_path <> Return out)
  /\ (~ (chunk_size <= 0 \/ overlap < 0 \/ overlap >= chunk_size) ->
      forall e,
        chunk_text fuel pages chunk_size overlap source_path <> Raise e)
  /\ (~ (chunk_size <= 0 \/ overlap < 0 \/ overlap >= chunk_size) ->
      (fuel_for pages <= fuel)%nat ->
      exists out,
        chunk_text fuel pages chunk_size overlap source_path = Return out).
Proof.
  assert ((chunk_size <= 0 \/ overlap < 0 \/ overlap >= chunk_size) ->
          exists msg,
            chunk_text fuel pages chunk_size overlap source_path
            = Raise (ValueError msg)) as Hbad.
  { intros H. unfold chunk_text.
    destruct (Z.leb_spec chunk_size 0); [eauto|].
    destruct (Z.ltb_spec overlap 0); [simpl; eauto|].
    destruct (Z.geb_spec overlap chunk_size); [simpl; eauto | lia]. }
  assert (~ (chunk_size <= 0 \/ overlap < 0 \/ overlap >= chunk_size) ->
          forall e,
            chunk_text fuel pages chunk_size overlap source_path <> Raise e)
    as Hgood.
  { intros H e. unfold chunk_text.
    destruct (valid_params_tests chunk_size overlap) as [-> ->];
      [unfold valid_params; lia|].
    now destruct (for_pages _ _ _ _ _ _ _). }
  repeat split.
  - exact Hbad.
  - intros [msg E].
    destruct (Z_le_gt_dec chunk_size 0); [auto|].
    destruct (Z_lt_ge_dec overlap 0); [auto|].
    destruct (Z_ge_lt_dec overlap chunk_size); [auto|].
    exfalso. apply (Hgood ltac:(lia) _ E).
  - intros H out E. destruct (Hbad H) as [msg E']. congruence.
  - exact Hgood.
  - intros H Hfuel. eexists. apply chunk_text_spec; [|assumption].
    unfold valid_params; lia.
Qed.

Lemma C5_parameter_validation_witness :
  (exists msg, chunk_text 0 ["abc"] 10 10 None = Raise (ValueError msg))
  /\ (exists out, chunk_text 3 ["abc"] 10 9 None = Return out).
Proof.
  split.
  - apply (proj1 (proj1 (C5_parameter_validation 0 ["abc"] 10 10 None))).
    right; right; lia.
  - apply (proj2 (proj2 (proj2
             (C5_parameter_validation 3 ["abc"] 10 9 None)))).
    + lia.
    + vm_compute; lia.
Defined.

(** C6. With [overlap = 0], the texts of the records of a page, put
    together in output order, are the page's text. *)
Theorem C6_zero_overlap_reconstruction (fuel : nat) (pages : list string)
    (chunk_size : Z) (source_path : option string) (p : nat) (T : string) :
  0 < chunk_size ->
  (fuel_for pages <= fuel)%nat ->
  nth_error pages p = Some T ->
  exists out,
    chunk_text fuel pages chunk_size 0 source_path = Return out
    /\ concat_texts (records_of_page out (page_number p)) = T.
Proof.
  intros Hcs Hfuel Hp. eexists. split.
  - apply chunk_text_spec; [unfold valid_params; lia | assumption].
  - rewrite Z.sub_0_r, (records_of_page_doc _ _ _ _ p T Hp).
    unfold page_chunks. rewrite concat_texts_page_chunks by assumption.
    cbn [Nat.mul Py.drop]. apply take_all.
    pose proof (chunk_count_gt_nat chunk_size Hcs T
                  (chunk_count (Py.len T) chunk_size)) as H.
    lia.
Qed.

Lemma C6_zero_overlap_reconstruction_witness :
  exists out,
    chunk_text 10 ["abcdefghij"] 4 0 None = Return out
    /\ concat_texts (records_of_page out (page_number 0)) = "abcdefghij".
Proof.
  apply (C6_zero_overlap_reconstruction 10 ["abcdefghij"] 4 None 0).
  - lia.
  - vm_compute; lia.
  - reflexivity.
Defined.

(** C7. [_clean_text] is total; its result has no leading and no trailing
    whitespace, every whitespace character in it is a single space not
    followed by another one, and it is the stripped input with every
    maximal run of whitespace replaced by one space; the text
    "  Hello\n\nworld \t foo  " becomes "Hello world foo". *)
Theorem C7_clean_text_postcondition :
  (forall s : string,
      starts_space (_clean_text s) = false
      /\ ends_space (_clean_text s) = false
      /\ single_spaced (_clean_text s) = true
      /\ _clean_text s = normalize_by_spec s)
  /\ _clean_text
       ("  Hello" ++ String LF (String LF ("world " ++ String TAB " foo  ")))
     = "Hello world foo".
Proof.
  split; [|reflexivity].
  intros s. rewrite clean_text_refines. unfold normalize_by_spec.
  destruct (strip_trimmed s) as [Hs He].
  rewrite starts_space_collapse, ends_space_collapse.
  repeat split; try assumption. apply single_spaced_collapse.
Qed.


(** C8. A page with empty text adds no record and raises nothing; every
    page keeps its positional page number and its records, numbered from 0;
    and the output is the one of the same document with any text at that
    position, less the records of that position. *)
Theorem C8_empty_page (fuel : nat) (pre post : list string)
    (chunk_size overlap : Z) (source_path : option string) :
  valid_params chunk_size overlap ->
  (fuel_for (pre ++ "" :: post) <= fuel)%nat ->
  exists out,
    chunk_text fuel (pre ++ "" :: post) chunk_size overlap source_path
    = Return out
    /\ records_of_page out (page_number (List.length pre)) = []
    /\ (forall (p : nat) (T : string),
           nth_error (pre ++ "" :: post) p = Some T ->
           records_of_page out (page_number p)
           = map (fun j =>
                    {| text :=
                         Py.slice T (Z.of_nat j * (chunk_size - overlap))
                           (Z.of_nat j * (chunk_size - overlap) + chunk_size);
                       page := page_number p;
                       chunk_id := (Py.str (page_number p) ++ "-"
                                    ++ Py.str (Z.of_nat j))%string;
                       source := source_or_empty source_path |})
                 (seq 0 (Z.to_nat (ceil_div (Py.len T)
                                            (chunk_size - overlap)))))
    /\ (forall (T : string) (fuel' : nat) (out' : list Chunk),
           (fuel_for (pre ++ T :: post) <= fuel')%nat ->
           chunk_text fuel' (pre ++ T :: post) chunk_size overlap source_path
           = Return out' ->
           out = without_page out' (page_number (List.length pre))).
Proof.
  intros Hv Hfuel. eexists. split; [now apply chunk_text_spec|].
  assert (0 < chunk_size - overlap) as Hstep
      by (destruct Hv as [? ?]; lia).
  split; [|split].
  - rewrite (records_of_page_doc _ _ _ _ (List.length pre) "").
    + now apply page_chunks_empty.
    + rewrite nth_error_app2 by lia. now rewrite Nat.sub_diag.
  - intros p T Hp. now rewrite (records_of_page_doc _ _ _ _ p T Hp).
  - intros T fuel' out' Hfuel' E.
    rewrite chunk_text_spec in E by assumption. injection E as <-.
    rewrite !doc_chunks_app. cbn [doc_chunks].
    rewrite page_chunks_empty by assumption. cbn [app].
    rewrite !without_page_app.
    rewrite without_page_all, without_page_none, without_page_all;
      [reflexivity | | | ].
    + intros c Hc. apply doc_chunks_page_range in Hc.
      unfold page_number. lia.
    + intros c Hc. apply page_chunks_page in Hc.
      unfold page_number. lia.
    + intros c Hc. apply doc_chunks_page_range in Hc.
      unfold page_number. lia.
Qed.

Lemma C8_empty_page_witness :
  exists out,
    chunk_text 3 (["ab"] ++ "" :: ["abc"]) 3 2 None = Return out
    /\ records_of_page out (page_number (List.length ["ab"])) = [].
Proof.
  destruct (C8_empty_page 3 ["ab"] ["abc"] 3 2 None) as (out & E & H & _).
  - unfold valid_params; lia.
  - vm_compute; lia.
  - exists out. split; assumption.
Defined.

(** C9. For valid parameters and any pages, the [chunk_id]s of the
    returned records are pairwise distinct. *)
Theorem C9_chunk_id_unique (fuel : nat) (pages : list string)
    (chunk_size overlap : Z) (source_path : option string) :
  valid_params chunk_size overlap ->
  (fuel_for pages <= fuel)%nat ->
  exists out,
    chunk_text fuel pages chunk_size overlap source_path = Return out
    /\ NoDup (map chunk_id out).
Proof.
  intros Hv Hfuel. eexists. split; [now apply chunk_text_spec|].
  apply doc_chunks_ids_NoDup. lia.
Qed.

Lemma C9_chunk_id_unique_witness :
  exists out,
    chunk_text 3 ["ab"; ""; "abc"] 3 2 None = Return out
    /\ NoDup (map chunk_id out).
Proof.
  apply (C9_chunk_id_unique 3 ["ab"; ""; "abc"] 3 2 None).
  - unfold valid_params; lia.
  - vm_compute; lia.
Defined.

(** C10. For valid parameters, with [step = chunk_size - overlap], the page
    at position [p] (page number [p + 1]) with text [T] of length [L] has
    exactly [ceil (L / step)] records; the [j]-th one has the text of [T]
    from position [j * step] of length [min chunk_size (L - j * step)], the
    id "i-j", the page number and the source; and every character position
    of [T] lies in one of them, for every valid overlap. *)
Theorem C10_per_page_characterization (fuel : nat) (pages : list string)
    (chunk_size overlap : Z) (source_path : option string)
    (p : nat) (T : string) :
  valid_params chunk_size overlap ->
  (fuel_for pages <= fuel)%nat ->
  nth_error pages p = Some T ->
  exists out,
    chunk_text fuel pages chunk_size overlap source_path = Return out
    /\ Z.of_nat (List.length (records_of_page out (page_number p)))
       = ceil_div (Py.len T) (chunk_size - overlap)
    /\ (forall j : nat,
           Z.of_nat j < ceil_div (Py.len T) (chunk_size - overlap) ->
           nth_error (records_of_page out (page_number p)) j
           = Some {| text :=
                       String.substring
                         (Z.to_nat (Z.of_nat j * (chunk_size - overlap)))
                         (Z.to_nat
                            (Z.min chunk_size
                               (Py.len T
                                - Z.of_nat j * (chunk_size - overlap))))
                         T;
                     page := page_number p;
                     chunk_id := (Py.str (page_number p) ++ "-"
                                  ++ Py.str (Z.of_nat j))%string;
                     source := source_or_empty source_path |})
    /\ (forall s, source_path = Some s -> source_or_empty source_path = s)
    /\ (forall q : nat,
           (q < String.length T)%nat ->
           exists (j : nat) (c : Chunk),
             nth_error (records_of_page out (page_number p)) j = Some c
             /\ (j * Z.to_nat (chunk_size - overlap) <= q
                 < j * Z.to_nat (chunk_size - overlap)
                   + String.length (text c))%nat
             /\ String.get (q - j * Z.to_nat (chunk_size - overlap)) (text c)
                = String.get q T).
Proof.
  intros Hv Hfuel Hp. eexists. split; [now apply chunk_text_spec|].
  destruct Hv as [Hcs Hov].
  rewrite (records_of_page_doc _ _ _ _ p T Hp).
  set (step := chunk_size - overlap) in *.
  assert (0 < step) as Hstep by (unfold step; lia).
  repeat split.
  - rewrite page_chunks_length. now apply chunk_count_Z.
  - intros j Hj. rewrite page_chunks_nth.
    assert (j < chunk_count (Py.len T) step)%nat as Hj'.
    { unfold chunk_count. lia. }
    destruct (Nat.ltb_spec j (chunk_count (Py.len T) step)); [|lia].
    f_equal. unfold nth_chunk, format_chunk_id. f_equal.
    rewrite slice_window by lia. rewrite substring_take_drop.
    rewrite (take_min (Z.to_nat chunk_size)), length_drop.
    f_equal. apply chunk_count_gt_iff in Hj'; [|assumption].
    unfold Py.len in *. lia.
  - intros s ->. apply source_or_empty_Some.
  - intros q Hq.
    set (S := Z.to_nat step). assert (0 < S)%nat as HS by (unfold S; lia).
    set (j := (q / S)%nat).
    assert (j * S <= q < j * S + S)%nat as Hjq.
    { pose proof (Nat.div_mod_eq q S) as E.
      pose proof (Nat.mod_upper_bound q S ltac:(lia)) as B.
      fold j in E. nia. }
    exists j, (nth_chunk T chunk_size step (source_or_empty source_path)
                         (page_number p) j).
    assert (j < chunk_count (Py.len T) step)%nat as Hj.
    { apply chunk_count_gt_nat; [assumption|]. fold S. lia. }
    rewrite page_chunks_nth.
    destruct (Nat.ltb_spec j (chunk_count (Py.len T) step)); [|lia].
    split; [reflexivity|].
    rewrite nth_chunk_length by assumption. fold S.
    assert (S <= Z.to_nat chunk_size)%nat by (unfold S, step; lia).
    split; [lia|].
    rewrite nth_chunk_text by assumption. fold S.
    rewrite get_take by lia. rewrite get_drop. f_equal. lia.
Qed.

Lemma C10_per_page_characterization_witness :
  exists out,
    chunk_text 10 ["abcdefghij"] 4 2 (Some "doc.pdf") = Return out
    /\ Z.of_nat (List.length (records_of_page out (page_number 0)))
       = ceil_div (Py.len "abcdefghij") (4 - 2).
Proof.
  destruct (C10_per_page_characterization
              10 ["abcdefghij"] 4 2 (Some "doc.pdf") 0 "abcdefghij")
    as (out & E & Hn & _).
  - unfold valid_params; lia.
  - vm_compute; lia.
  - reflexivity.
  - exists out. split; assumption.
Defined.

(** * Further properties of the code *)

(** ** The normaliser *)

Lemma rstrip_id (s : string) : ends_space s = false -> Py.rstrip s = s.
Proof.
  induction s as [|c s IH]; [reflexivity|]. intros He.
  pose proof (ends_space_tail c s He) as He'.
  cbn [Py.rstrip]. rewrite (IH He').
  destruct s as [|d s]; [|reflexivity].
  simpl in He. now rewrite He.
Qed.

Lemma collapse_runs_id (s : string) :
  single_spaced s = true -> collapse_runs s = s.
Proof.
  induction s as [|c s IH]; [reflexivity|].
  cbn [single_spaced collapse_runs]. intros H.
  apply andb_true_iff in H. destruct H as [Hc Hs].
  rewrite (IH Hs). destruct (Py.isspace c); [|reflexivity].
  apply andb_true_iff in Hc. destruct Hc as [Hc Hn].
  apply negb_true_iff in Hn. rewrite Hn.
  apply Ascii.eqb_eq in Hc. now subst c.
Qed.

Lemma clean_text_normal (s : string) :
  starts_space (_clean_text s) = false
  /\ ends_space (_clean_text s) = false
  /\ single_spaced (_clean_text s) = true.
Proof.
  rewrite clean_text_refines. unfold normalize_by_spec.
  destruct (strip_trimmed s) as [Hs He].
  rewrite starts_space_collapse, ends_space_collapse.
  repeat split; try assumption. apply single_spaced_collapse.
Qed.

Lemma clean_text_fixed (s : string) :
  starts_space s = false -> ends_space s = false ->
  single_spaced s = true -> _clean_text s = s.
Proof.
  intros Hs He Hss. rewrite clean_text_refines.
  unfold normalize_by_spec, Py.strip.
  rewrite (lstrip_id s Hs), (rstrip_id s He). now apply collapse_runs_id.
Qed.

(** X1. Normalising is idempotent: a page that went through [_clean_text]
    is not changed by a second pass. *)
Theorem X1_clean_text_idempotent (s : string) :
  _clean_text (_clean_text s) = _clean_text s.
Proof.
  destruct (clean_text_normal s) as (Hs & He & Hss).
  now apply clean_text_fixed.
Qed.

(** X2. The texts [_clean_text] leaves unchanged are exactly those with no
    leading whitespace, no trailing whitespace, and every whitespace
    character a single space not followed by whitespace. *)
Theorem X2_clean_text_fixed_points (s : string) :
  _clean_text s = s <->
  starts_space s = false /\ ends_space s = false /\ single_spaced s = true.
Proof.
  split.
  - intros E. rewrite <- E. apply clean_text_normal.
  - intros (Hs & He & Hss). now apply clean_text_fixed.
Qed.

Lemma all_space_lstrip (s : string) :
  all_space s = true -> Py.lstrip s = EmptyString.
Proof.
  induction s as [|c s IH]; [reflexivity|]. cbn [all_space Py.lstrip].
  intros H. apply andb_true_iff in H. destruct H as [-> H]. auto.
Qed.

Lemma lstrip_empty (s : string) :
  Py.lstrip s = EmptyString -> all_space s = true.
Proof.
  induction s as [|c s IH]; [reflexivity|]. cbn [all_space Py.lstrip].
  destruct (Py.isspace c); [auto | discriminate].
Qed.

Lemma rstrip_empty (s : string) :
  Py.rstrip s = EmptyString -> all_space s = true.
Proof.
  induction s as [|c s IH]; [reflexivity|]. cbn [all_space Py.rstrip].
  destruct (Py.rstrip s) as [|d r]; [|discriminate].
  destruct (Py.isspace c); [auto | discriminate].
Qed.

Lemma strip_empty_iff (s : string) :
  Py.strip s = EmptyString <-> all_space s = true.
Proof.
  unfold Py.strip. split.
  - intros E. apply rstrip_empty in E. apply lstrip_empty.
    pose proof (starts_space_lstrip s) as Hs.
    destruct (Py.lstrip s) as [|c t]; [reflexivity|].
    simpl in E, Hs. rewrite Hs in E. discriminate.
  - intros H. now rewrite all_space_lstrip.
Qed.

Lemma not_empty_iff (s : string) : Py.not_ s = true <-> s = EmptyString.
Proof. destruct s; simpl; split; congruence. Qed.

(** X3. [_clean_text] returns the empty string exactly for the inputs made
    of whitespace only (the empty input included). *)
Theorem X3_clean_text_empty_iff (s : string) :
  _clean_text s = EmptyString <-> all_space s = true.
Proof.
  rewrite clean_text_refines. unfold normalize_by_spec.
  rewrite <- strip_empty_iff, <- !not_empty_iff. now rewrite not_collapse.
Qed.

Lemma split_from_collapse (t : string) :
  forall cur, Py.split_from cur (collapse_runs t) = Py.split_from cur t.
Proof.
  induction t as [|c t IH]; intros cur; [reflexivity|].
  rewrite collapse_runs_cons. cbn [Py.split_from].
  destruct (Py.isspace c) eqn:Hc.
  - destruct (starts_space t) eqn:Ht.
    + rewrite IH. destruct t as [|d t]; [discriminate|].
      simpl in Ht. cbn [Py.split_from]. rewrite Ht. reflexivity.
    + cbn [Py.split_from]. change (Py.isspace " ") with true.
      cbn iota. now rewrite IH.
  - cbn [Py.split_from]. rewrite Hc. apply IH.
Qed.

Lemma split_from_lstrip (s : string) :
  Py.split_from EmptyString (Py.lstrip s) = Py.split_from EmptyString s.
Proof.
  induction s as [|c s IH]; [reflexivity|]. cbn [Py.lstrip].
  destruct (Py.isspace c) eqn:Hc; [|reflexivity].
  cbn [Py.split_from]. now rewrite Hc.
Qed.

Lemma split_from_rstrip (s : string) :
  forall cur, Py.split_from cur (Py.rstrip s) = Py.split_from cur s.
Proof.
  induction s as [|c s IH]; intros cur; [reflexivity|].
  cbn [Py.rstrip]. destruct (Py.rstrip s) as [|d r] eqn:E.
  - cbn [Py.split_from]. destruct (Py.isspace c) eqn:Hc.
    + rewrite <- (IH EmptyString). reflexivity.
    + cbn [Py.split_from]. rewrite Hc, <- IH. reflexivity.
  - cbn [Py.split_from]. destruct (Py.isspace c); now rewrite <- !IH.
Qed.

(** X4. Normalising keeps the words: splitting the result on whitespace
    gives the same list of words as splitting the input. *)
Theorem X4_clean_text_keeps_words (s : string) :
  Py.split (_clean_text s) = Py.split s.
Proof.
  rewrite clean_text_refines. unfold normalize_by_spec, Py.split, Py.strip.
  now rewrite split_from_collapse, split_from_rstrip, split_from_lstrip.
Qed.

Lemma length_lstrip (s : string) :
  (String.length (Py.lstrip s) <= String.length s)%nat.
Proof.
  induction s as [|c s IH]; simpl; [lia|].
  destruct (Py.isspace c); simpl; lia.
Qed.

Lemma length_rstrip (s : string) :
  (String.length (Py.rstrip s) <= String.length s)%nat.
Proof.
  induction s as [|c s IH]; simpl; [lia|].
  destruct (Py.rstrip s); [destruct (Py.isspace c)|]; simpl in *; lia.
Qed.

Lemma length_collapse (s : string) :
  (String.length (collapse_runs s) <= String.length s)%nat.
Proof.
  induction s as [|c s IH]; simpl; [lia|].
  destruct (Py.isspace c); [destruct (starts_space s)|]; simpl; lia.
Qed.

(** X5. Normalising never makes a text longer. *)
Theorem X5_clean_text_not_longer (s : string) :
  Py.len (_clean_text s) <= Py.len s.
Proof.
  rewrite clean_text_refines. unfold normalize_by_spec, Py.strip, Py.len.
  pose proof (length_collapse (Py.rstrip (Py.lstrip s))).
  pose proof (length_rstrip (Py.lstrip s)).
  pose proof (length_lstrip s). lia.
Qed.

(** ** The chunker *)

Lemma while_page_traced_erase (T : string) (chunk_size step i : Z)
    (src : string) (fuel : nat) :
  forall (n idx : Z) (chunks : list Chunk),
    option_map fst
      (while_page_traced fuel T chunk_size step i src n idx chunks)
    = while_page fuel T chunk_size step i src n idx chunks.
Proof.
  induction fuel as [|fuel IH]; intros n idx chunks; simpl;
    destruct (idx <? Py.len T); try reflexivity.
  destruct (Py.not_ _); [reflexivity | apply IH].
Qed.

Lemma while_page_traced_no_break (T : string) (chunk_size step i : Z)
    (src : string) :
  0 < chunk_size -> 0 < step ->
  forall (fuel j : nat) (chunks out : list Chunk) (b : bool),
    while_page_traced fuel T chunk_size step i src
                      (Z.of_nat j) (Z.of_nat j * step) chunks
    = Some (out, b) ->
    b = false.
Proof.
  intros Hcs Hstep.
  induction fuel as [|fuel IH]; intros j chunks out b; simpl;
    destruct (Z.ltb_spec (Z.of_nat j * step) (Py.len T));
    try congruence.
  rewrite (part_not_empty chunk_size Hcs) by lia.
  replace (Z.of_nat j + 1) with (Z.of_nat (S j)) by lia.
  replace (Z.of_nat j * step + step) with (Z.of_nat (S j) * step) by lia.
  apply IH.
Qed.

(** The instrumented loop can report a [break]: with a negative
    [chunk_size], which [chunk_text] never lets through, it does. *)
Lemma while_page_traced_break_seen :
  exists out, while_page_traced 5 "abc" (-1) 1 1 "" 0 0 [] = Some (out, true).
Proof. eexists. reflexivity. Qed.

(** X6. With valid parameters the [break] of the loop is never taken:
    every run of the page loop started by [chunk_text] ends at the loop
    test, with the records the uninstrumented loop gives; and no returned
    record has an empty text. *)
Theorem X6_break_never_taken (fuel : nat) (pages : list string)
    (chunk_size overlap : Z) (source_path : option string) :
  valid_params chunk_size overlap ->
  (fuel_for pages <= fuel)%nat ->
  (forall (T : string) (i : Z) (chunks : list Chunk),
      In T pages ->
      exists chunks',
        while_page fuel T chunk_size (chunk_size - overlap) i
                   (source_or_empty source_path) 0 0 chunks
        = Some chunks'
        /\ while_page_traced fuel T chunk_size (chunk_size - overlap) i
                             (source_or_empty source_path) 0 0 chunks
           = Some (chunks', false))
  /\ exists out,
      chunk_text fuel pages chunk_size overlap source_path = Return out
      /\ forall c, In c out -> 0 < Py.len (text c).
Proof.
  intros Hv Hfuel. pose proof Hv as [Hcs Hov].
  assert (0 < chunk_size - overlap) as Hstep by lia.
  split.
  - intros T i chunks HT.
    assert (String.length T <= fuel)%nat as HTfuel.
    { unfold fuel_for in Hfuel. rewrite list_max_le, Forall_forall in Hfuel.
      apply Hfuel, in_map, HT. }
    pose proof (while_page_spec chunk_size (chunk_size - overlap)
                  (source_or_empty source_path) Hcs Hstep T i fuel chunks
                  HTfuel) as E.
    eexists. split; [exact E|].
    pose proof (while_page_traced_erase T chunk_size (chunk_size - overlap)
                  i (source_or_empty source_path) fuel 0 0 chunks) as Er.
    rewrite E in Er.
    destruct (while_page_traced fuel T chunk_size (chunk_size - overlap) i
                (source_or_empty source_path) 0 0 chunks)
      as [[out b]|] eqn:Et; [|discriminate].
    cbn in Er. injection Er as ->.
    now rewrite (while_page_traced_no_break T chunk_size
                   (chunk_size - overlap) i (source_or_empty source_path)
                   Hcs Hstep fuel 0 chunks _ b Et).
  - eexists. split; [now apply chunk_text_spec|].
    intros c Hc. apply In_doc_chunks in Hc.
    destruct Hc as (p & T & j & _ & Hj & ->).
    apply chunk_count_gt_nat in Hj; [|assumption].
    unfold Py.len. rewrite nth_chunk_length by assumption. lia.
Qed.

Lemma X6_break_never_taken_witness :
  (forall (T : string) (i : Z) (chunks : list Chunk),
      In T ["ab"; ""; "abc"] ->
      exists chunks',
        while_page 3 T 3 (3 - 2) i (source_or_empty None) 0 0 chunks
        = Some chunks'
        /\ while_page_traced 3 T 3 (3 - 2) i (source_or_empty None) 0 0
                             chunks
           = Some (chunks', false))
  /\ exists out,
      chunk_text 3 ["ab"; ""; "abc"] 3 2 None = Return out
      /\ forall c, In c out -> 0 < Py.len (text c).
Proof.
  apply (X6_break_never_taken 3 ["ab"; ""; "abc"] 3 2 None).
  - unfold valid_params; lia.
  - vm_compute; lia.
Defined.

Lemma chunk_count_one (T : string) (step : Z) :
  0 < step -> 0 < Py.len T <= step -> chunk_count (Py.len T) step = 1%nat.
Proof.
  intros Hs HL.
  pose proof (chunk_count_gt_iff (Py.len T) step 0 Hs) as H0.
  pose proof (chunk_count_gt_iff (Py.len T) step 1 Hs) as H1.
  lia.
Qed.

(** X7. A non-empty page no longer than [chunk_size - overlap] gives
    exactly one record, holding the whole page under the id "i-0"; a page
    longer than that gives at least two records, and as long as it is no
    longer than [chunk_size] the first of them holds the whole page. *)
Theorem X7_short_page (fuel : nat) (pages : list string)
    (chunk_size overlap : Z) (source_path : option string)
    (p : nat) (T : string) :
  valid_params chunk_size overlap ->
  (fuel_for pages <= fuel)%nat ->
  nth_error pages p = Some T ->
  0 < Py.len T ->
  exists out,
    chunk_text fuel pages chunk_size overlap source_path = Return out
    /\ (Py.len T <= chunk_size - overlap ->
        records_of_page out (page_number p)
        = [ {| text := T; page := page_number p;
               chunk_id := (Py.str (page_number p) ++ "-0")%string;
               source := source_or_empty source_path |} ])
    /\ (chunk_size - overlap < Py.len T ->
        (2 <= List.length (records_of_page out (page_number p)))%nat)
    /\ (Py.len T <= chunk_size ->
        nth_error (records_of_page out (page_number p)) 0
        = Some {| text := T; page := page_number p;
                  chunk_id := (Py.str (page_number p) ++ "-0")%string;
                  source := source_or_empty source_path |}).
Proof.
  intros Hv Hfuel Hp HL. eexists. split; [now apply chunk_text_spec|].
  destruct Hv as [Hcs Hov].
  set (step := chunk_size - overlap).
  assert (0 < step) as Hstep by (unfold step; lia).
  rewrite (records_of_page_doc _ _ _ _ p T Hp).
  assert (Py.len T <= chunk_size ->
          nth_chunk T chunk_size step (source_or_empty source_path)
                    (page_number p) 0
          = {| text := T; page := page_number p;
               chunk_id := (Py.str (page_number p) ++ "-0")%string;
               source := source_or_empty source_path |}) as Hfirst.
  { intros Hle. unfold nth_chunk, format_chunk_id. f_equal.
    rewrite slice_window by lia. cbn [Z.of_nat Z.mul Z.to_nat Py.drop].
    apply take_all. unfold Py.len in Hle. lia. }
  repeat split.
  - intros Hle. unfold page_chunks.
    rewrite chunk_count_one by lia. cbn [seq map].
    rewrite Hfirst by lia. reflexivity.
  - intros Hgt. rewrite page_chunks_length.
    pose proof (chunk_count_gt_iff (Py.len T) step 1 Hstep). lia.
  - intros Hle. rewrite page_chunks_nth.
    pose proof (chunk_count_gt_iff (Py.len T) step 0 Hstep) as H0.
    destruct (Nat.ltb_spec 0 (chunk_count (Py.len T) step)); [|lia].
    now rewrite Hfirst.
Qed.

Lemma X7_short_page_witness :
  exists out,
    chunk_text 5 ["hello"] 800 120 None = Return out
    /\ (Py.len "hello" <= 800 - 120 ->
        records_of_page out (page_number 0)
        = [ {| text := "hello"; page := page_number 0;
               chunk_id := (Py.str (page_number 0) ++ "-0")%string;
               source := source_or_empty None |} ]).
Proof.
  destruct (X7_short_page 5 ["hello"] 800 120 None 0 "hello")
    as (out & E & H & _).
  - unfold valid_params; lia.
  - vm_compute; lia.
  - reflexivity.
  - reflexivity.
  - exists out. split; assumption.
Defined.

Lemma concat_heads_page_chunks (T src : string) (chunk_size step i : Z) :
  0 < step <= chunk_size ->
  forall (m j0 : nat),
    concat_heads (Z.to_nat step)
                 (map (nth_chunk T chunk_size step src i) (seq j0 m))
    = Py.take (m * Z.to_nat step) (Py.drop (j0 * Z.to_nat step) T).
Proof.
  intros Hs. induction m as [|m IH]; intros j0; [reflexivity|].
  cbn [seq map concat_heads fold_right].
  fold (concat_heads (Z.to_nat step)
          (map (nth_chunk T chunk_size step src i) (seq (S j0) m))).
  rewrite IH, nth_chunk_text by lia.
  rewrite take_take, Nat.min_l by lia.
  replace (Datatypes.S m * Z.to_nat step)%nat
    with (Z.to_nat step + m * Z.to_nat step)%nat by lia.
  rewrite take_add, drop_drop. do 3 f_equal. lia.
Qed.

(** X8. For every valid overlap the page text is recovered from its
    records by keeping the first [chunk_size - overlap] characters of each
    text: the overlaps repeat characters, they never lose any. *)
Theorem X8_reconstruction_any_overlap (fuel : nat) (pages : list string)
    (chunk_size overlap : Z) (source_path : option string)
    (p : nat) (T : string) :
  valid_params chunk_size overlap ->
  (fuel_for pages <= fuel)%nat ->
  nth_error pages p = Some T ->
  exists out,
    chunk_text fuel pages chunk_size overlap source_path = Return out
    /\ concat_heads (Z.to_nat (chunk_size - overlap))
                    (records_of_page out (page_number p)) = T.
Proof.
  intros Hv Hfuel Hp. eexists. split; [now apply chunk_text_spec|].
  destruct Hv as [Hcs Hov].
  assert (0 < chunk_size - overlap) as Hstep by lia.
  rewrite (records_of_page_doc _ _ _ _ p T Hp).
  unfold page_chunks. rewrite concat_heads_page_chunks by lia.
  cbn [Nat.mul Py.drop]. apply take_all.
  pose proof (chunk_count_gt_nat _ Hstep T
                (chunk_count (Py.len T) (chunk_size - overlap))) as H.
  lia.
Qed.

Lemma X8_reconstruction_any_overlap_witness :
  exists out,
    chunk_text 10 ["abcdefghij"] 4 3 None = Return out
    /\ concat_heads (Z.to_nat (4 - 3)) (records_of_page out (page_number 0))
       = "abcdefghij".
Proof.
  apply (X8_reconstruction_any_overlap 10 ["abcdefghij"] 4 3 None 0).
  - unfold valid_params; lia.
  - vm_compute; lia.
  - reflexivity.
Defined.

Lemma flat_map_of_map {A B C : Type} (f : B -> list C) (g : A -> B)
    (l : list A) :
  flat_map f (map g l) = flat_map (fun x => f (g x)) l.
Proof. induction l as [|a l IH]; simpl; [reflexivity | now rewrite IH]. Qed.

Lemma doc_chunks_by_page (pages : list string) (chunk_size step : Z)
    (src : string) :
  forall i0,
    doc_chunks pages chunk_size step src i0
    = flat_map (fun p =>
                  records_of_page (doc_chunks pages chunk_size step src i0)
                                  (i0 + Z.of_nat p))
               (seq 0 (List.length pages)).
Proof.
  intros i0.
  transitivity
    (flat_map (fun p => match nth_error pages p with
                        | Some T => page_chunks T chunk_size step src
                                                (i0 + Z.of_nat p)
                        | None => []
                        end)
              (seq 0 (List.length pages))).
  - revert i0. induction pages as [|T rest IH]; intros i0; [reflexivity|].
    cbn [doc_chunks List.length seq flat_map nth_error].
    rewrite Z.add_0_r. f_equal.
    rewrite (IH (i0 + 1)), <- seq_shift, flat_map_of_map.
    apply flat_map_ext. intros q. cbn [nth_error].
    destruct (nth_error rest q); [|reflexivity]. f_equal. lia.
  - rewrite !flat_map_concat_map. f_equal. apply map_ext_in.
    intros q Hq. apply in_seq in Hq.
    destruct (nth_error pages q) as [T|] eqn:E.
    + now rewrite (records_of_page_doc_chunks _ _ _ _ _ _ _ E).
    + apply nth_error_None in E. lia.
Qed.

(** X9. The output is ordered by page: it is the records of page 1, then
    those of page 2, and so on, each page's records in their own order. *)
Theorem X9_output_in_page_order (fuel : nat) (pages : list string)
    (chunk_size overlap : Z) (source_path : option string) :
  valid_params chunk_size overlap ->
  (fuel_for pages <= fuel)%nat ->
  exists out,
    chunk_text fuel pages chunk_size overlap source_path = Return out
    /\ out = flat_map (fun p => records_of_page out (page_number p))
                      (seq 0 (List.length pages)).
Proof.
  intros Hv Hfuel. eexists. split; [now apply chunk_text_spec|].
  rewrite (doc_chunks_by_page pages _ _ _ 1) at 1.
  apply flat_map_ext. intros q. unfold page_number. f_equal. lia.
Qed.

Lemma X9_output_in_page_order_witness :
  exists out,
    chunk_text 3 ["ab"; ""; "abc"] 3 2 None = Return out
    /\ out = flat_map (fun p => records_of_page out (page_number p))
                      (seq 0 (List.length ["ab"; ""; "abc"])).
Proof.
  apply (X9_output_in_page_order 3 ["ab"; ""; "abc"] 3 2 None).
  - unfold valid_params; lia.
  - vm_compute; lia.
Defined.

(** X10. The number of records returned is the sum over the pages of
    [ceil (L / (chunk_size - overlap))]. *)
Theorem X10_total_count (fuel : nat) (pages : list string)
    (chunk_size overlap : Z) (source_path : option string) :
  valid_params chunk_size overlap ->
  (fuel_for pages <= fuel)%nat ->
  exists out,
    chunk_text fuel pages chunk_size overlap source_path = Return out
    /\ Z.of_nat (List.length out)
       = fold_right Z.add 0
           (map (fun T => ceil_div (Py.len T) (chunk_size - overlap)) pages).
Proof.
  intros Hv Hfuel. eexists. split; [now apply chunk_text_spec|].
  destruct Hv as [Hcs Hov].
  assert (0 < chunk_size - overlap) as Hstep by lia.
  generalize 1 as i0.
  induction pages as [|T rest IH]; intros i0; [reflexivity|].
  apply list_max_le in Hfuel. cbn [map] in Hfuel. inversion Hfuel; subst.
  cbn [doc_chunks map fold_right].
  rewrite List.length_app, page_chunks_length, Nat2Z.inj_add.
  rewrite chunk_count_Z by assumption. f_equal.
  apply IH. now apply list_max_le.
Qed.

Lemma X10_total_count_witness :
  exists out,
    chunk_text 3 ["ab"; ""; "abc"] 3 2 None = Return out
    /\ Z.of_nat (List.length out)
       = fold_right Z.add 0
           (map (fun T => ceil_div (Py.len T) (3 - 2)) ["ab"; ""; "abc"]).
Proof.
  apply (X10_total_count 3 ["ab"; ""; "abc"] 3 2 None).
  - unfold valid_params; lia.
  - vm_compute; lia.
Defined.

Lemma fuel_for_app (a b : list string) :
  fuel_for (a ++ b) = Nat.max (fuel_for a) (fuel_for b).
Proof. unfold fuel_for. now rewrite map_app, list_max_app. Qed.

Lemma doc_chunks_shift (pages : list string) (chunk_size step : Z)
    (src : string) (k : Z) :
  forall i0,
    map text (doc_chunks pages chunk_size step src (i0 + k))
    = map text (doc_chunks pages chunk_size step src i0)
    /\ map page (doc_chunks pages chunk_size step src (i0 + k))
       = map (fun c => page c + k) (doc_chunks pages chunk_size step src i0)
    /\ map source (doc_chunks pages chunk_size step src (i0 + k))
       = map source (doc_chunks pages chunk_size step src i0).
Proof.
  induction pages as [|T rest IH]; intros i0; [now repeat split|].
  cbn [doc_chunks]. rewrite !map_app.
  destruct (IH (i0 + 1)) as (E1 & E2 & E3).
  replace (i0 + k + 1) with (i0 + 1 + k) by lia.
  rewrite E1, E2, E3. unfold page_chunks. rewrite !map_map.
  now repeat split.
Qed.

(** X11. Appending pages to a document leaves the records of the earlier
    pages as they were; the records of the appended pages have the texts
    and sources they would have on their own, with page numbers moved up
    by the number of earlier pages. *)
Theorem X11_appended_pages (fuel : nat) (pre post : list string)
    (chunk_size overlap : Z) (source_path : option string) :
  valid_params chunk_size overlap ->
  (fuel_for (pre ++ post) <= fuel)%nat ->
  exists out_pre out_post tail,
    chunk_text fuel pre chunk_size overlap source_path = Return out_pre
    /\ chunk_text fuel post chunk_size overlap source_path = Return out_post
    /\ chunk_text fuel (pre ++ post) chunk_size overlap source_path
       = Return (out_pre ++ tail)
    /\ map text tail = map text out_post
    /\ map page tail
       = map (fun c => page c + Z.of_nat (List.length pre)) out_post
    /\ map source tail = map source out_post.
Proof.
  intros Hv Hfuel. rewrite fuel_for_app in Hfuel.
  do 3 eexists.
  split; [apply chunk_text_spec; [assumption | lia]|].
  split; [apply chunk_text_spec; [assumption | lia]|].
  split.
  - rewrite chunk_text_spec; [|assumption | rewrite fuel_for_app; lia].
    now rewrite doc_chunks_app.
  - apply doc_chunks_shift.
Qed.

Lemma X11_appended_pages_witness :
  exists out_pre out_post tail,
    chunk_text 3 ["ab"] 3 2 None = Return out_pre
    /\ chunk_text 3 ["abc"] 3 2 None = Return out_post
    /\ chunk_text 3 (["ab"] ++ ["abc"]) 3 2 None = Return (out_pre ++ tail)
    /\ map text tail = map text out_post
    /\ map page tail
       = map (fun c => page c + Z.of_nat (List.length ["ab"])) out_post
    /\ map source tail = map source out_post.
Proof.
  apply (X11_appended_pages 3 ["ab"] ["abc"] 3 2 None).
  - unfold valid_params; lia.
  - vm_compute; lia.
Defined.

Lemma ceil_div_antitone (L s s' : Z) :
  0 <= L -> 0 < s' <= s -> ceil_div L s <= ceil_div L s'.
Proof.
  intros HL Hs. apply ceil_div_le_iff; [lia|].
  pose proof (ceil_div_nonneg L s' HL ltac:(lia)) as Hn.
  assert (L <= ceil_div L s' * s') by (apply ceil_div_le_iff; lia).
  nia.
Qed.

(** X12. A page of length [L] gives at least [ceil (L / chunk_size)] and
    at most [L] records, and raising the overlap (with the same
    chunk_size) never gives fewer records for a page. *)
Theorem X12_count_bounds (fuel : nat) (pages : list string)
    (chunk_size overlap overlap' : Z) (source_path : option string)
    (p : nat) (T : string) :
  valid_params chunk_size overlap ->
  valid_params chunk_size overlap' ->
  overlap <= overlap' ->
  (fuel_for pages <= fuel)%nat ->
  nth_error pages p = Some T ->
  exists out out',
    chunk_text fuel pages chunk_size overlap source_path = Return out
    /\ chunk_text fuel pages chunk_size overlap' source_path = Return out'
    /\ ceil_div (Py.len T) chunk_size
       <= Z.of_nat (List.length (records_of_page out (page_number p)))
       <= Py.len T
    /\ (List.length (records_of_page out (page_number p))
        <= List.length (records_of_page out' (page_number p)))%nat.
Proof.
  intros Hv Hv' Hle Hfuel Hp. do 2 eexists.
  split; [now apply chunk_text_spec|].
  split; [now apply chunk_text_spec|].
  destruct Hv as [Hcs Hov], Hv' as [_ Hov'].
  rewrite !(records_of_page_doc _ _ _ _ p T Hp), !page_chunks_length.
  assert (0 <= Py.len T) as HL by (unfold Py.len; lia).
  split; [split|].
  - rewrite chunk_count_Z by lia. apply ceil_div_antitone; lia.
  - pose proof (chunk_count_le_length T (chunk_size - overlap)
                  ltac:(lia)) as Hc.
    unfold Py.len in *. lia.
  - apply Nat2Z.inj_le. rewrite !chunk_count_Z by lia.
    apply ceil_div_antitone; lia.
Qed.

Lemma X12_count_bounds_witness :
  exists out out',
    chunk_text 10 ["abcdefghij"] 4 2 None = Return out
    /\ chunk_text 10 ["abcdefghij"] 4 3 None = Return out'
    /\ ceil_div (Py.len "abcdefghij") 4
       <= Z.of_nat (List.length (records_of_page out (page_number 0)))
       <= Py.len "abcdefghij"
    /\ (List.length (records_of_page out (page_number 0))
        <= List.length (records_of_page out' (page_number 0)))%nat.
Proof.
  apply (X12_count_bounds 10 ["abcdefghij"] 4 2 3 None 0 "abcdefghij").
  - unfold valid_params; lia.
  - unfold valid_params; lia.
  - lia.
  - vm_compute; lia.
  - reflexivity.
Defined.

(** ** Loading a PDF *)

(** What [load_pdf] stores for one page: [_clean_text(text or "")]. *)
Lemma extract_pages_all (texts : list (option string)) :
  forall acc,
    extract_pages (map inr texts) acc
    = Done (acc ++ map (fun t => _clean_text (source_or_empty t)) texts).
Proof.
  induction texts as [|t texts IH]; intros acc; cbn [map extract_pages].
  - now rewrite app_nil_r.
  - rewrite IH, <- app_assoc. reflexivity.
Qed.

Lemma extract_pages_fail (texts : list (option string)) (e : pyexn)
    (rest : list (pyexn + option string)) :
  forall acc, extract_pages (map inr texts ++ inl e :: rest) acc = Fail e.
Proof.
  induction texts as [|t texts IH]; intros acc; cbn [map app extract_pages];
    [reflexivity | apply IH].
Qed.

(** A list of page answers is all texts, or has a first exception. *)
Lemma pages_split (raw : list (pyexn + option string)) :
  (exists texts, raw = map inr texts)
  \/ (exists texts e rest, raw = map inr texts ++ inl e :: rest).
Proof.
  induction raw as [|[e|t] raw IH].
  - left. now exists [].
  - right. now exists [], e, raw.
  - destruct IH as [(texts & ->) | (texts & e & rest & ->)].
    + left. now exists (t :: texts).
    + right. now exists (t :: texts), e, rest.
Qed.

Lemma endswith_app (a b : string) : endswith (a ++ b)%string b = true.
Proof.
  unfold endswith. rewrite length_app. apply andb_true_iff. split.
  - apply Nat.leb_le. lia.
  - replace (String.length a + String.length b - String.length b)%nat
      with (String.length a) by lia.
    assert (Py.drop (String.length a) (a ++ b)%string = b) as ->.
    { induction a as [|c a IH]; simpl; auto. }
    apply String.eqb_refl.
Qed.

Lemma lower_app (a b : string) :
  lower (a ++ b)%string = (lower a ++ lower b)%string.
Proof. induction a as [|c a IH]; simpl; [reflexivity | now rewrite IH]. Qed.

Lemma load_pdf_checked (w : World) (path : string) :
  path_exists w path = true ->
  endswith (lower path) ".pdf" = true ->
  load_pdf w path = match pdf_reader w path with
                    | inl e => Fail e
                    | inr pages => extract_pages pages []
                    end.
Proof. intros He Hx. unfold load_pdf. now rewrite He, Hx. Qed.

(** X13. The failures of [load_pdf], in the order the code meets them: a
    path that does not exist gives [FileNotFoundError] naming the path,
    whatever its extension; an existing path not ending in ".pdf" (in any
    letter case) gives [ValueError] without the file being read; and when
    the reader or the extraction of some page raises, that exception comes
    out and the pages read before it are not returned. *)
Theorem X13_load_pdf_failures (w : World) (path : string) :
  (path_exists w path = false ->
   load_pdf w path
   = Fail (FileNotFoundError ("Fant ikke fil: " ++ path)%string))
  /\ (path_exists w path = true ->
      endswith (lower path) ".pdf" = false ->
      exists msg, load_pdf w path = Fail (Invalid (ValueError msg)))
  /\ (path_exists w path = true ->
      endswith (lower path) ".pdf" = true ->
      (forall e, pdf_reader w path = inl e -> load_pdf w path = Fail e)
      /\ (forall texts e rest,
             pdf_reader w path = inr (map inr texts ++ inl e :: rest) ->
             load_pdf w path = Fail e)).
Proof.
  repeat split.
  - intros He. unfold load_pdf. now rewrite He.
  - intros He Hx. unfold load_pdf. rewrite He, Hx. cbn. eauto.
  - intros e E. rewrite load_pdf_checked by assumption. now rewrite E.
  - intros texts e rest E. rewrite load_pdf_checked by assumption.
    rewrite E. apply extract_pages_fail.
Qed.

Lemma X13_load_pdf_failures_witness :
  load_pdf (mkWorld (fun _ => false) (fun _ => inr []) (fun _ => []))
           "notes.txt"
  = Fail (FileNotFoundError ("Fant ikke fil: " ++ "notes.txt")%string)
  /\ exists msg,
      load_pdf (mkWorld (fun _ => true) (fun _ => inr []) (fun _ => []))
               "notes.txt"
      = Fail (Invalid (ValueError msg)).
Proof.
  split.
  - apply (proj1 (X13_load_pdf_failures
                    (mkWorld (fun _ => false) (fun _ => inr [])
                             (fun _ => [])) "notes.txt")).
    reflexivity.
  - apply (proj1 (proj2 (X13_load_pdf_failures
                           (mkWorld (fun _ => true) (fun _ => inr [])
                                    (fun _ => [])) "notes.txt")));
      reflexivity.
Defined.

(** X14. [load_pdf] returns a list exactly when the path exists, ends in
    ".pdf" up to letter case, and the reader and every page's extraction
    succeed; the list then has one entry per page of the PDF, in order:
    the normalised text of the page, the empty string for a page with no
    text. *)
Theorem X14_load_pdf_success (w : World) (path : string)
    (pages : list string) :
  load_pdf w path = Done pages <->
  path_exists w path = true
  /\ endswith (lower path) ".pdf" = true
  /\ exists texts : list (option string),
      pdf_reader w path = inr (map inr texts)
      /\ pages = map (fun t => match t with
                               | Some raw => _clean_text raw
                               | None => EmptyString
                               end) texts.
Proof.
  assert (forall texts : list (option string),
             map (fun t => _clean_text (source_or_empty t)) texts
             = map (fun t => match t with
                             | Some raw => _clean_text raw
                             | None => EmptyString
                             end) texts) as Hmap.
  { intros texts. apply map_ext. intros [raw|]; [|reflexivity].
    now rewrite source_or_empty_Some. }
  split.
  - unfold load_pdf.
    destruct (path_exists w path); [|discriminate].
    destruct (endswith (lower path) ".pdf"); [|discriminate]. cbn [negb].
    destruct (pdf_reader w path) as [e|raw]; [discriminate|].
    destruct (pages_split raw) as [(texts & ->) | (texts & e & rest & ->)].
    + rewrite extract_pages_all. intros [= <-].
      repeat split. exists texts. split; [reflexivity|]. apply Hmap.
    + rewrite extract_pages_fail. discriminate.
  - intros (He & Hx & texts & E & ->).
    rewrite load_pdf_checked by assumption.
    rewrite E, extract_pages_all. now rewrite Hmap.
Qed.

(** X15. The extension test ignores letter case: an existing path whose
    ending lowers to ".pdf" (".PDF", ".Pdf", ...) is read. *)
Theorem X15_extension_any_case (w : World) (stem ext : string)
    (texts : list (option string)) :
  lower ext = ".pdf" ->
  path_exists w (stem ++ ext)%string = true ->
  pdf_reader w (stem ++ ext)%string = inr (map inr texts) ->
  exists pages,
    load_pdf w (stem ++ ext)%string = Done pages
    /\ List.length pages = List.length texts.
Proof.
  intros Hext He E. eexists. split.
  - rewrite load_pdf_checked; [rewrite E; apply extract_pages_all | auto |].
    rewrite lower_app, Hext. apply endswith_app.
  - cbn [app]. now rewrite length_map.
Qed.

Lemma X15_extension_any_case_witness :
  exists pages,
    load_pdf (mkWorld (fun _ => true)
                      (fun _ => inr (map inr [Some " a  b "; None]))
                      (fun _ => []))
             ("Report" ++ ".PDF")%string = Done pages
    /\ List.length pages = List.length [Some " a  b "; None].
Proof.
  apply (X15_extension_any_case
           (mkWorld (fun _ => true)
                    (fun _ => inr (map inr [Some " a  b "; None]))
                    (fun _ => []))
           "Report" ".PDF" [Some " a  b "; None]); reflexivity.
Defined.

Lemma X14_load_pdf_success_witness :
  load_pdf (mkWorld (fun _ => true)
                    (fun _ => inr (map inr [Some " a  b "; None]))
                    (fun _ => []))
           "x.pdf"
  = Done (map (fun t => match t with
                        | Some raw => _clean_text raw
                        | None => EmptyString
                        end) [Some " a  b "; None]).
Proof.
  apply (proj2 (X14_load_pdf_success
                  (mkWorld (fun _ => true)
                           (fun _ => inr (map inr [Some " a  b "; None]))
                           (fun _ => []))
                  "x.pdf" _)).
  split; [reflexivity|]. split; [reflexivity|].
  exists [Some " a  b "; None]. split; reflexivity.
Defined.

Lemma single_spaced_take (n : nat) (s : string) :
  single_spaced s = true -> single_spaced (Py.take n s) = true.
Proof.
  revert s; induction n as [|n IH]; intros [|c s]; simpl; auto.
  intros H. apply andb_true_iff in H. destruct H as [Hc Hs].
  rewrite (IH s Hs), andb_true_r.
  destruct (Py.isspace c); [|reflexivity].
  apply andb_true_iff in Hc. destruct Hc as [-> Hn]. simpl.
  destruct n, s; simpl in *; auto.
Qed.

Lemma single_spaced_drop (n : nat) (s : string) :
  single_spaced s = true -> single_spaced (Py.drop n s) = true.
Proof.
  revert s; induction n as [|n IH]; intros [|c s]; simpl; auto.
  intros H. apply andb_true_iff in H. now apply IH.
Qed.

Lemma load_pdf_pages_clean (w : World) (path : string)
    (pages : list string) :
  load_pdf w path = Done pages ->
  forall T, In T pages -> exists raw, T = _clean_text raw.
Proof.
  unfold load_pdf.
  destruct (path_exists w path); [|discriminate].
  destruct (endswith (lower path) ".pdf"); [|discriminate]. cbn [negb].
  destruct (pdf_reader w path) as [e|raw]; [discriminate|].
  destruct (pages_split raw) as [(texts & ->) | (texts & e & rest & ->)].
  - rewrite extract_pages_all. intros [= <-] T HT.
    apply in_map_iff in HT. destruct HT as (t & <- & _). eauto.
  - rewrite extract_pages_fail. discriminate.
Qed.

(** X16. Loading then chunking, as [main] and [build_index_from_pdf] do:
    every page handed to the chunker is a fixed point of [_clean_text]
    with no whitespace at either end, and in every chunk text each
    whitespace character is a single space with no whitespace after it, so
    no chunk holds a newline, a tab or a doubled space; each record
    carries the path as its source. *)
Theorem X16_chunks_of_loaded_pdf (fuel : nat) (w : World) (path : string)
    (pages : list string) (chunk_size overlap : Z) :
  load_pdf w path = Done pages ->
  valid_params chunk_size overlap ->
  (fuel_for pages <= fuel)%nat ->
  (forall T, In T pages ->
             _clean_text T = T
             /\ starts_space T = false /\ ends_space T = false)
  /\ exists out,
      chunk_text fuel pages chunk_size overlap (Some path) = Return out
      /\ forall c, In c out ->
                   single_spaced (text c) = true /\ source c = path.
Proof.
  intros Hload Hv Hfuel.
  pose proof (load_pdf_pages_clean w path pages Hload) as Hclean.
  split.
  - intros T HT. destruct (Hclean T HT) as (raw & ->).
    destruct (clean_text_normal raw) as (Hs & He & Hss).
    split; [now apply clean_text_fixed | now split].
  - eexists. split; [now apply chunk_text_spec|].
    destruct Hv as [Hcs Hov].
    assert (0 < chunk_size - overlap) as Hstep by lia.
    intros c Hc. apply In_doc_chunks in Hc.
    destruct Hc as (p & T & j & Hp & Hj & ->). split.
    + rewrite nth_chunk_text by assumption.
      apply single_spaced_take, single_spaced_drop.
      destruct (Hclean T (nth_error_In _ _ Hp)) as (raw & ->).
      apply clean_text_normal.
    + cbn [source nth_chunk]. apply source_or_empty_Some.
Qed.

Lemma X16_chunks_of_loaded_pdf_witness :
  exists pages out,
    load_pdf (mkWorld (fun _ => true)
                      (fun _ => inr (map inr [Some " a  b "; None]))
                      (fun _ => []))
             "x.pdf" = Done pages
    /\ chunk_text 3 pages 2 1 (Some "x.pdf") = Return out
    /\ forall c, In c out ->
                 single_spaced (text c) = true /\ source c = "x.pdf".
Proof.
  exists ["a b"; ""].
  destruct (X16_chunks_of_loaded_pdf 3
              (mkWorld (fun _ => true)
                       (fun _ => inr (map inr [Some " a  b "; None]))
                       (fun _ => []))
              "x.pdf" ["a b"; ""] 2 1) as (_ & out & E & H).
  - reflexivity.
  - unfold valid_params; lia.
  - vm_compute; lia.
  - exists out. split; [reflexivity|]. split; assumption.
Defined.

(** ** Finding the first PDF *)

Lemma leb_refl (s : string) : (s <=? s)%string = true.
Proof. now destruct (String.leb_total s s). Qed.

Lemma leb_trans (s1 : string) :
  forall s2 s3,
    (s1 <=? s2)%string = true -> (s2 <=? s3)%string = true ->
    (s1 <=? s3)%string = true.
Proof.
  unfold String.leb.
  induction s1 as [|a s1 IH]; intros [|b s2] [|c s3]; simpl; auto;
    try discriminate.
  unfold Ascii.compare.
  destruct (N.compare_spec (N_of_ascii a) (N_of_ascii b)),
           (N.compare_spec (N_of_ascii b) (N_of_ascii c)),
           (N.compare_spec (N_of_ascii a) (N_of_ascii c));
    auto; try discriminate; try lia.
  apply IH.
Qed.

Lemma insert_sorted_not_nil (x : string) (l : list string) :
  insert_sorted x l <> [].
Proof. destruct l as [|y r]; simpl; [|destruct (x <=? y)%string]; discriminate. Qed.

Lemma sorted_nil_iff (l : list string) : sorted l = [] <-> l = [].
Proof.
  split; [|now intros ->].
  destruct l as [|x l]; [reflexivity|]. cbn [sorted fold_right].
  intros H. now apply insert_sorted_not_nil in H.
Qed.

(** The head of [sorted l] is a least element of [l]. *)
Lemma sorted_head (l : list string) :
  forall m r, sorted l = m :: r ->
              In m l /\ forall x, In x l -> (m <=? x)%string = true.
Proof.
  induction l as [|x l IH]; intros m r; [discriminate|].
  cbn [sorted fold_right]. fold (sorted l).
  destruct (sorted l) as [|m' r'] eqn:E.
  - apply (proj1 (sorted_nil_iff _)) in E. subst l. intros [= <- _].
    split; [now left|]. intros y [<-|[]]. apply leb_refl.
  - destruct (IH m' r' eq_refl) as [Hin Hmin].
    cbn [insert_sorted]. destruct (x <=? m')%string eqn:Hx.
    + intros [= <- _]. split; [now left|].
      intros y [<-|Hy]; [apply leb_refl|].
      apply (leb_trans _ m'); auto.
    + intros [= <- _]. split; [now right|].
      intros y [<-|Hy]; [|auto].
      destruct (String.leb_total m' x) as [H|H]; [assumption | congruence].
Qed.

Lemma sorted_head_perm (l l' : list string) :
  Permutation l l' ->
  match sorted l, sorted l' with
  | [], [] => True
  | m :: _, m' :: _ => m = m'
  | _, _ => False
  end.
Proof.
  intros HP.
  destruct (sorted l) as [|m r] eqn:E, (sorted l') as [|m' r'] eqn:E'.
  - exact I.
  - apply (proj1 (sorted_nil_iff _)) in E. subst l. apply Permutation_nil in HP.
    subst l'. discriminate.
  - apply (proj1 (sorted_nil_iff _)) in E'. subst l'.
    apply Permutation_sym, Permutation_nil in HP. subst l. discriminate.
  - destruct (sorted_head l m r E) as [Hin Hmin].
    destruct (sorted_head l' m' r' E') as [Hin' Hmin'].
    apply String.leb_antisym.
    + apply Hmin. eapply Permutation_in; [apply Permutation_sym|]; eauto.
    + apply Hmin'. eapply Permutation_in; eauto.
Qed.

(** X17. [_find_first_pdf], in [ingest.py] and in [index.py]: when the
    listing of "<data_dir>/*.pdf" is empty both raise [FileNotFoundError];
    otherwise both return the same path, which is one of the listed paths
    and is below every listed path in the order of strings. *)
Theorem X17_find_first_pdf (w : World) (data_dir : string) :
  (glob w (path_join data_dir "*.pdf") = [] ->
   _find_first_pdf w data_dir
   = Fail (FileNotFoundError ("Fant ingen PDF i " ++ data_dir
                              ++ ". Legg en fil der.")%string)
   /\ Index._find_first_pdf w data_dir
      = Fail (FileNotFoundError ("Ingen PDF funnet i " ++ data_dir
                                 ++ ".")%string))
  /\ (glob w (path_join data_dir "*.pdf") <> [] ->
      exists first,
        _find_first_pdf w data_dir = Done first
        /\ Index._find_first_pdf w data_dir = Done first
        /\ In first (glob w (path_join data_dir "*.pdf"))
        /\ forall x, In x (glob w (path_join data_dir "*.pdf")) ->
                     (first <=? x)%string = true).
Proof.
  unfold _find_first_pdf, Index._find_first_pdf. split.
  - intros ->. now split.
  - intros Hne.
    destruct (sorted (glob w (path_join data_dir "*.pdf")))
      as [|m r] eqn:E.
    + apply (proj1 (sorted_nil_iff _)) in E. contradiction.
    + exists m. destruct (sorted_head _ m r E). auto.
Qed.

Lemma X17_find_first_pdf_witness :
  exists first,
    _find_first_pdf
      (mkWorld (fun _ => true) (fun _ => inr [])
               (fun _ => ["./data/z.pdf"; "./data/B.pdf"; "./data/a.pdf"]))
      "./data" = Done first
    /\ first = "./data/B.pdf".
Proof.
  destruct (proj2 (X17_find_first_pdf
              (mkWorld (fun _ => true) (fun _ => inr [])
                 (fun _ => ["./data/z.pdf"; "./data/B.pdf"; "./data/a.pdf"]))
              "./data")) as (first & E & _).
  - discriminate.
  - exists first. split; [assumption|].
    vm_compute in E. now injection E as <-.
Defined.

(** X18. The path found does not depend on the order in which the
    directory is listed: two listings with the same entries give the same
    result. *)
Theorem X18_find_first_pdf_listing_order (w w' : World)
    (data_dir : string) :
  Permutation (glob w (path_join data_dir "*.pdf"))
              (glob w' (path_join data_dir "*.pdf")) ->
  _find_first_pdf w data_dir = _find_first_pdf w' data_dir
  /\ Index._find_first_pdf w data_dir = Index._find_first_pdf w' data_dir.
Proof.
  intros HP. apply sorted_head_perm in HP.
  unfold _find_first_pdf, Index._find_first_pdf.
  destruct (sorted (glob w _)), (sorted (glob w' _));
    try contradiction; [now split | subst; now split].
Qed.

Lemma X18_find_first_pdf_listing_order_witness :
  _find_first_pdf
    (mkWorld (fun _ => true) (fun _ => inr []) (fun _ => ["b.pdf"; "a.pdf"]))
    "d"
  = _find_first_pdf
      (mkWorld (fun _ => true) (fun _ => inr [])
               (fun _ => ["a.pdf"; "b.pdf"]))
      "d".
Proof.
  apply (proj1 (X18_find_first_pdf_listing_order
                  (mkWorld (fun _ => true) (fun _ => inr [])
                           (fun _ => ["b.pdf"; "a.pdf"]))
                  (mkWorld (fun _ => true) (fun _ => inr [])
                           (fun _ => ["a.pdf"; "b.pdf"]))
                  "d" (perm_swap "a.pdf" "b.pdf" []))).
Defined.

(** ** Documents and the index *)

(** The [Document] built from a chunker record. *)
Lemma to_documents_loop_chunks (chunks : list Chunk) :
  forall docs,
    to_documents_loop (map chunk_dict chunks) docs
    = Done (docs
            ++ map (fun c =>
                      mkDocument (VStr (text c))
                        [ ("page", VInt (page c));
                          ("chunk_id", VStr (chunk_id c));
                          ("source", VStr (source c)) ])
                   chunks).
Proof.
  induction chunks as [|c chunks IH]; intros docs.
  - cbn. now rewrite app_nil_r.
  - cbn [map to_documents_loop].
    change (dict_lookup (chunk_dict c) "text") with (Some (VStr (text c))).
    change (dict_get (chunk_dict c) "page" VNone) with (VInt (page c)).
    change (dict_get (chunk_dict c) "chunk_id" VNone)
      with (VStr (chunk_id c)).
    change (dict_get (chunk_dict c) "source" (VStr ""))
      with (VStr (source c)).
    cbn iota. rewrite IH, <- app_assoc. reflexivity.
Qed.

Lemma to_documents_loop_ok (chunks : list dict) :
  (forall c, In c chunks -> dict_lookup c "text" <> None) ->
  forall docs,
    exists more,
      to_documents_loop chunks docs = Done (docs ++ more)
      /\ List.length more = List.length chunks
      /\ forall d, In d more ->
                   map fst (doc_metadata d) = ["page"; "chunk_id"; "source"].
Proof.
  induction chunks as [|c chunks IH]; intros Hall docs.
  - exists []. cbn. rewrite app_nil_r. now repeat split.
  - cbn [to_documents_loop].
    destruct (dict_lookup c "text") as [t|] eqn:E;
      [|now destruct (Hall c (or_introl eq_refl))].
    destruct (IH (fun c' H => Hall c' (or_intror H))
                 (docs ++ [mkDocument t
                             [ ("page", dict_get c "page" VNone);
                               ("chunk_id", dict_get c "chunk_id" VNone);
                               ("source", dict_get c "source" (VStr "")) ]]))
      as (more & -> & Hlen & Hmeta).
    eexists (_ :: more). rewrite <- app_assoc. split; [reflexivity|].
    split; [simpl; now rewrite Hlen|].
    intros d [<-|Hd]; [reflexivity | auto].
Qed.

Lemma to_documents_loop_fail (chunks : list dict) :
  (exists c, In c chunks /\ dict_lookup c "text" = None) ->
  forall docs, to_documents_loop chunks docs = Fail (KeyError "text").
Proof.
  induction chunks as [|c chunks IH]; intros (c0 & Hin & Hc0) docs;
    [destruct Hin|].
  cbn [to_documents_loop].
  destruct (dict_lookup c "text") as [t|] eqn:E; [|reflexivity].
  apply IH. destruct Hin as [->|Hin]; [congruence | eauto].
Qed.

(** X19. On the records of the chunker [_to_documents] raises nothing and
    gives one [Document] per record, in order, with the record's text and
    a metadata dict holding its page, chunk_id and source. *)
Theorem X19_documents_of_chunks (chunks : list Chunk) :
  _to_documents (map chunk_dict chunks)
  = Done (map (fun c =>
                 mkDocument (VStr (text c))
                   [ ("page", VInt (page c));
                     ("chunk_id", VStr (chunk_id c));
                     ("source", VStr (source c)) ])
              chunks).
Proof. unfold _to_documents. now rewrite to_documents_loop_chunks. Qed.

(** X20. On dicts whose "text" entry, when there is one, is a string,
    [_to_documents] raises [KeyError] for "text" exactly when some dict has
    no "text" key, and then returns no partial list; otherwise it returns
    one [Document] per dict, whose metadata has the three keys page,
    chunk_id and source and no other key of the dict. *)
Theorem X20_documents_key_error (chunks : list dict) :
  forallb text_str_or_absent chunks = true ->
  ((exists c, In c chunks /\ dict_lookup c "text" = None) <->
   _to_documents chunks = Fail (KeyError "text"))
  /\ ((forall c, In c chunks -> dict_lookup c "text" <> None) <->
      exists docs,
        _to_documents chunks = Done docs
        /\ List.length docs = List.length chunks
        /\ forall d, In d docs ->
             map fst (doc_metadata d) = ["page"; "chunk_id"; "source"]).
Proof.
  intros _.
  assert ((forall c, In c chunks -> dict_lookup c "text" <> None)
          \/ (exists c, In c chunks /\ dict_lookup c "text" = None)) as Hdec.
  { induction chunks as [|c chunks IH]; [left; intros c []|].
    destruct (dict_lookup c "text") as [t|] eqn:E.
    - destruct IH as [IH|(c0 & Hin & H0)].
      + left. intros c' [<-|H]; [congruence | auto].
      + right. exists c0. split; [now right | assumption].
    - right. exists c. split; [now left | assumption]. }
  unfold _to_documents. split; split.
  - intros H. now apply to_documents_loop_fail.
  - intros E. destruct Hdec as [Hall|Hex]; [|assumption].
    destruct (to_documents_loop_ok chunks Hall []) as (more & E' & _).
    congruence.
  - intros Hall. destruct (to_documents_loop_ok chunks Hall [])
      as (more & E & Hlen & Hmeta).
    exists more. auto.
  - intros (docs & E & _) c Hc Hnone.
    rewrite to_documents_loop_fail in E by eauto. discriminate.
Qed.

Lemma X20_documents_key_error_witness :
  forallb text_str_or_absent [[("text", VStr "a")]; [("page", VInt 2)]]
  = true
  /\ _to_documents [[("text", VStr "a")]; [("page", VInt 2)]]
     = Fail (KeyError "text").
Proof.
  split; [reflexivity|].
  apply (proj1 (proj1 (X20_documents_key_error
                         [[("text", VStr "a")]; [("page", VInt 2)]]
                         eq_refl))).
  exists [("page", VInt 2)]. split; [right; left; reflexivity | reflexivity].
Defined.

Lemma chunk_text_invalid (fuel : nat) (pages : list string)
    (chunk_size overlap : Z) (source_path : option string) :
  ~ valid_params chunk_size overlap ->
  exists msg,
    chunk_text fuel pages chunk_size overlap source_path
    = Raise (ValueError msg).
Proof.
  intros H. unfold chunk_text, valid_params in *.
  destruct (Z.leb_spec chunk_size 0); [eauto|].
  destruct (Z.ltb_spec overlap 0); [simpl; eauto|].
  destruct (Z.geb_spec overlap chunk_size); [simpl; eauto | lia].
Qed.

(** X21. [build_index_from_pdf] calls nothing on the indexer (no
    embedding, no directory, no write) when the PDF cannot be loaded or the
    chunk parameters are invalid; the loading error comes first, also when
    the parameters are invalid too. *)
Theorem X21_build_index_early_failures {Idx : Type} (fuel : nat)
    (w : World) (ix : Indexer Idx) (pdf_path : string)
    (chunk_size overlap : Z) (persist_dir : string) :
  (forall e,
      load_pdf w pdf_path = Fail e ->
      build_index_from_pdf fuel w ix pdf_path chunk_size overlap persist_dir
      = ([], Fail e))
  /\ (forall pages,
         load_pdf w pdf_path = Done pages ->
         ~ valid_params chunk_size overlap ->
         exists msg,
           build_index_from_pdf fuel w ix pdf_path chunk_size overlap
                                persist_dir
           = ([], Fail (Invalid (ValueError msg)))).
Proof.
  unfold build_index_from_pdf. split.
  - intros e ->. reflexivity.
  - intros pages -> Hbad.
    destruct (chunk_text_invalid fuel pages chunk_size overlap
                                 (Some pdf_path) Hbad) as (msg & ->).
    now exists msg.
Qed.

Lemma X21_build_index_early_failures_witness :
  build_index_from_pdf 0
    (mkWorld (fun _ => false) (fun _ => inr []) (fun _ => []))
    (mkIndexer nat (fun _ => inr 0%nat) (fun _ => None) (fun _ _ => None))
    "missing.pdf" 0 0 "./storage"
  = ([], Fail (FileNotFoundError "Fant ikke fil: missing.pdf")).
Proof.
  apply (proj1 (X21_build_index_early_failures 0
                  (mkWorld (fun _ => false) (fun _ => inr []) (fun _ => []))
                  (mkIndexer nat (fun _ => inr 0%nat) (fun _ => None)
                             (fun _ _ => None))
                  "missing.pdf" 0 0 "./storage")).
  reflexivity.
Defined.

(** X22. With a loaded PDF and valid parameters [build_index_from_pdf]
    hands the indexer one document per chunk, each with the PDF's path as
    its source, then creates the directory, then persists, in this order
    and once each; when the embedding call raises nothing is created or
    written, and when creating the directory raises nothing is
    persisted. *)
Theorem X22_build_index_calls {Idx : Type} (fuel : nat) (w : World)
    (ix : Indexer Idx) (pdf_path : string) (pages : list string)
    (chunk_size overlap : Z) (persist_dir : string) :
  load_pdf w pdf_path = Done pages ->
  valid_params chunk_size overlap ->
  (fuel_for pages <= fuel)%nat ->
  exists chunks docs,
    chunk_text fuel pages chunk_size overlap (Some pdf_path) = Return chunks
    /\ docs = map (fun c =>
                     mkDocument (VStr (text c))
                       [ ("page", VInt (page c));
                         ("chunk_id", VStr (chunk_id c));
                         ("source", VStr pdf_path) ]) chunks
    /\ (forall e,
           from_documents ix docs = inl e ->
           build_index_from_pdf fuel w ix pdf_path chunk_size overlap
                                persist_dir
           = ([CallFromDocuments docs], Fail e))
    /\ (forall index e,
           from_documents ix docs = inr index ->
           makedirs ix persist_dir = Some e ->
           build_index_from_pdf fuel w ix pdf_path chunk_size overlap
                                persist_dir
           = ([CallFromDocuments docs; CallMakedirs persist_dir], Fail e))
    /\ (forall index,
           from_documents ix docs = inr index ->
           makedirs ix persist_dir = None ->
           build_index_from_pdf fuel w ix pdf_path chunk_size overlap
                                persist_dir
           = ([CallFromDocuments docs; CallMakedirs persist_dir;
               CallPersist index persist_dir],
              match persist ix index persist_dir with
              | Some e => Fail e
              | None => Done index
              end)).
Proof.
  intros Hload Hv Hfuel.
  pose proof (chunk_text_spec fuel pages chunk_size overlap (Some pdf_path)
                              Hv Hfuel) as E.
  rewrite source_or_empty_Some in E.
  set (chunks := doc_chunks pages chunk_size (chunk_size - overlap)
                            pdf_path 1) in *.
  assert (map (fun c =>
                 mkDocument (VStr (text c))
                   [ ("page", VInt (page c));
                     ("chunk_id", VStr (chunk_id c));
                     ("source", VStr (source c)) ]) chunks
          = map (fun c =>
                   mkDocument (VStr (text c))
                     [ ("page", VInt (page c));
                       ("chunk_id", VStr (chunk_id c));
                       ("source", VStr pdf_path) ]) chunks) as Hsrc.
  { apply map_ext_in. intros c Hc. apply In_doc_chunks in Hc.
    now destruct Hc as (p & T & j & _ & _ & ->). }
  exists chunks. eexists. split; [exact E|]. split; [reflexivity|].
  unfold build_index_from_pdf. rewrite Hload, E.
  unfold _to_documents. rewrite to_documents_loop_chunks. cbn [app].
  rewrite Hsrc.
  split; [|split].
  - intros e ->. reflexivity.
  - intros index e -> ->. reflexivity.
  - intros index -> ->. now destruct (persist ix index persist_dir).
Qed.

Lemma X22_build_index_calls_witness :
  exists chunks docs,
    chunk_text 3 ["a b"; ""] 2 1 (Some "x.pdf") = Return chunks
    /\ docs = map (fun c =>
                     mkDocument (VStr (text c))
                       [ ("page", VInt (page c));
                         ("chunk_id", VStr (chunk_id c));
                         ("source", VStr "x.pdf") ]) chunks
    /\ List.length docs = 3%nat.
Proof.
  destruct (X22_build_index_calls 3
              (mkWorld (fun _ => true)
                       (fun _ => inr (map inr [Some " a  b "; None]))
                       (fun _ => []))
              (mkIndexer nat (fun _ => inr 0%nat) (fun _ => None)
                         (fun _ _ => None))
              "x.pdf" ["a b"; ""] 2 1 "./storage")
    as (chunks & docs & E & Hd & _).
  - reflexivity.
  - unfold valid_params; lia.
  - vm_compute; lia.
  - exists chunks, docs. split; [assumption|]. split; [assumption|].
    subst docs. rewrite length_map.
    vm_compute in E. injection E as <-. reflexivity.
Defined.
